(** * Shot-chart fetcher and court renderer: a shallow embedding

    This development embeds the two Python modules of the repository,

      - [nba_scoring/shot_maps/robust_fetch_all.py]  (module [Fetch]), and
      - [nba_scoring/shot_maps/draw_shot_chart.py]   (module [Chart]),

    and proves properties of the embedded functions.

    Conventions of the embedding:

      - a pandas DataFrame of shots is the list of its rows, in index
        order; [pd.concat(..., ignore_index=True)] is list concatenation
        and [len] is the row count;
      - the working directory is a finite map from file names to files;
        a file written by [to_csv] is known by the table it was written
        from, and what [pd.read_csv] makes of such a file is a parameter
        of the development (pandas infers the column types again, so the
        table read need not be the table written);
      - the integer columns of a table are int64 columns: arithmetic on
        them wraps around at 64 bits;
      - every call of the shot-chart endpoint, every file read, write and
        removal and every [time.sleep] is appended to a trace carried by
        the world, so that "no network call" and "no file written" are
        statements about the trace;
      - Python exceptions (subclasses of [Exception]) are the [Raise]
        results of a state-and-exception monad; effects performed before
        the exception was raised stay in the state;
      - [print] calls and wall-clock reads whose value is only printed are
        left out, except for the last line of the run summary, which the
        trace records. *)

From Stdlib Require Import ZArith QArith String Ascii List Lia.
From Stdlib Require Import Decimal DecimalString DecimalZ DecimalPos.
From stdpp Require Import base gmap strings list list_numbers.

Local Open Scope string_scope.
Local Open Scope list_scope.
Local Open Scope Z_scope.

(** ** Python primitives used by the two modules *)

Module Py.

(** An exception, identified with the text [str(e)] gives. *)
Inductive Exn : Type := Exception (msg : string).

Definition str_exn (e : Exn) : string :=
  match e with Exception msg => msg end.

Inductive Result (A : Type) : Type :=
| Ok (a : A)
| Raise (e : Exn).
Arguments Ok {A} a.
Arguments Raise {A} e.

(** [str(n)] for an [int]. *)
Definition str (n : Z) : string := NilZero.string_of_int (Z.to_int n).

(** ['0' * n] *)
Fixpoint zeros (n : nat) : string :=
  match n with
  | O => ""
  | S n' => String "0" (zeros n')
  end.

(** [s.zfill(width)]: pad on the left with zeros up to [width]; a
    leading sign stays in front of the padding. *)
Definition zfill (width : nat) (s : string) : string :=
  let fill := (width - String.length s)%nat in
  match s with
  | String c rest =>
      if (Ascii.eqb c "-" || Ascii.eqb c "+")%bool
      then String c (zeros fill +:+ rest)
      else zeros fill +:+ s
  | EmptyString => zeros fill
  end.

(** [a % b] on [int]: the sign follows the divisor, and a zero divisor
    raises [ZeroDivisionError], whose text for [%] is the one of
    CPython 3.11. *)
Definition ZeroDivisionError : Exn :=
  Exception "integer modulo by zero".

(** The [ZeroDivisionError] of a division ([//], [divmod], and the
    division of a [timedelta] by an [int]). *)
Definition ZeroDivisionError_div : Exn :=
  Exception "integer division or modulo by zero".

(** 64-bit signed integers, the element type of an integer column of a
    DataFrame: the range, and the value an arithmetic result wraps to. *)
Definition int64_min : Z := - 2 ^ 63.
Definition int64_max : Z := 2 ^ 63 - 1.

Definition is_int64 (z : Z) : Prop := int64_min <= z <= int64_max.

Definition wrap_int64 (z : Z) : Z := (z + 2 ^ 63) mod 2 ^ 64 - 2 ^ 63.

Definition mod_ (a b : Z) : Result Z :=
  if b =? 0 then Raise ZeroDivisionError else Ok (a mod b).

(** [range(a, b)] *)
Definition range (a b : Z) : list Z := seqZ a (b - a).

(** *** The state-and-exception monad *)

Definition M (S A : Type) : Type := S -> Result A * S.

Definition ret {S A} (a : A) : M S A := fun s => (Ok a, s).

Definition bind {S A B} (m : M S A) (k : A -> M S B) : M S B :=
  fun s =>
    match m s with
    | (Ok a, s') => k a s'
    | (Raise e, s') => (Raise e, s')
    end.

Definition raise {S A} (e : Exn) : M S A := fun s => (Raise e, s).

(** [try: m  except Exception as e: h e] *)
Definition try_except {S A} (m : M S A) (h : Exn -> M S A) : M S A :=
  fun s =>
    match m s with
    | (Ok a, s') => (Ok a, s')
    | (Raise e, s') => h e s'
    end.

Definition get {S} : M S S := fun s => (Ok s, s).
Definition modify {S} (f : S -> S) : M S unit := fun s => (Ok tt, f s).

(** Lift a computation on a component of the state. *)
Definition zoom {S T A} (proj : S -> T) (upd : T -> S -> S) (m : M T A) : M S A :=
  fun s => let (r, t) := m (proj s) in (r, upd t s).

(** [if c: m] *)
Definition when {S} (c : bool) (m : M S unit) : M S unit :=
  if c then m else ret tt.

(** [for i, x in enumerate(l, i0): body i x] *)
Fixpoint for_enumerate {S A} (body : Z -> A -> M S unit) (i : Z) (l : list A)
  : M S unit :=
  match l with
  | [] => ret tt
  | x :: l' => bind (body i x) (fun _ => for_enumerate body (i + 1) l')
  end.

(** [for x in l: acc = body acc x] *)
Fixpoint for_each {S A B} (body : B -> A -> M S B) (acc : B) (l : list A)
  : M S B :=
  match l with
  | [] => ret acc
  | x :: l' => bind (body acc x) (fun acc' => for_each body acc' l')
  end.

End Py.

Export Py.

Declare Scope py_scope.
Delimit Scope py_scope with py.
Notation "x <- m ;; k" := (bind m (fun x => k))
  (at level 100, m at next level, right associativity) : py_scope.
Notation "m ;;; k" := (bind m (fun _ => k))
  (at level 100, right associativity) : py_scope.
Local Open Scope py_scope.

(** ** [robust_fetch_all.py] *)

Module Fetch.

(** *** Data model *)

(** A cell of a column that is not used in arithmetic: text, or an
    integer. The endpoint sends game identifiers as text
    (['0022400001']); a table read back from a file has them as integers
    ([22400001]). *)
Inductive Cell : Type :=
| StrCell (s : string)
| IntCell (n : Z).

(** One row of the shot-chart table: the columns the two modules name.
    [TEAM_ID], [LOC_X], [LOC_Y] and [SHOT_MADE_FLAG] are integer (int64)
    columns. *)
Record Shot : Type := mkShot {
  GAME_ID : Cell;
  PLAYER_NAME : Cell;
  TEAM_ID : Z;
  LOC_X : Z;
  LOC_Y : Z;
  SHOT_MADE_FLAG : Z
}.

(** A table of shots: its rows, in index order. *)
Abbreviation DataFrame := (list Shot).

(** [len(df)] *)
Definition len {A} (l : list A) : Z := Z.of_nat (length l).

(** [pd.concat(frames, ignore_index=True)] *)
Definition pd_concat (frames : list DataFrame) : DataFrame := concat frames.

(** [pd.DataFrame()] *)
Definition pd_DataFrame : DataFrame := [].

(** A file of the working directory: either the delimited text that
    [to_csv(index=False)] writes for a table [d], or content on which
    [pd.read_csv] raises (an empty or truncated file, say). *)
Inductive File : Type :=
| CsvFile (d : DataFrame)
| Unparseable (err : string).

(** A team record of [teams.get_teams()]: the two keys the loop reads. *)
Record Team : Type := mkTeam {
  id : Z;
  full_name : string
}.

Inductive Event : Type :=
| Request (team_id : Z) (season : string)
| ReadCsv (path : string)
| WriteCsv (path : string) (d : DataFrame)
| Remove (path : string)
| Sleep (seconds : Q)
| PrintTotal (total_shots : Z).

Record World : Type := mkWorld {
  fs : gmap string File;
  trace : list Event
}.

Definition log (e : Event) (w : World) : World :=
  {| fs := fs w; trace := trace w ++ [e] |}.

(** *** The operating system and pandas *)

(** [os.path.exists(path)] *)
Definition os_path_exists (path : string) : M World bool :=
  fun w => (Ok (bool_decide (is_Some (fs w !! path))), w).

Definition FileNotFoundError (path : string) : Exn :=
  Exception ("[Errno 2] No such file or directory: '" +:+ path +:+ "'").

(** [df.to_csv(path, index=False)]: the whole file is replaced by the
    text of the table. *)
Definition to_csv (d : DataFrame) (path : string) : M World unit :=
  fun w => (Ok tt, {| fs := <[path := CsvFile d]> (fs w);
                      trace := trace w ++ [WriteCsv path d] |}).

(** [os.remove(path)] *)
Definition os_remove (path : string) : M World unit :=
  fun w =>
    match fs w !! path with
    | Some _ => (Ok tt, {| fs := delete path (fs w);
                           trace := trace w ++ [Remove path] |})
    | None => (Raise (FileNotFoundError path), w)
    end.

(** [time.sleep(seconds)]: a negative length raises [ValueError]. *)
Definition time_sleep (seconds : Q) : M World unit :=
  fun w =>
    if Qle_bool 0 seconds then (Ok tt, log (Sleep seconds) w)
    else (Raise (Exception "sleep length must be non-negative"), w).

(** [l[0]] *)
Definition index0 {S A} (l : list A) : M S A :=
  match l with
  | x :: _ => ret x
  | [] => raise (Exception "list index out of range")
  end.

(** *** File names *)

Definition output_file (season : string) : string :=
  "nba_shots_" +:+ season +:+ "_all.csv".

Definition progress_file (season : string) : string :=
  "nba_shots_" +:+ season +:+ "_progress.csv".

(** *** [get_all_shots_season] *)

(** The local variables of the team loop together with the world. The two
    lists are mutated in place, so what was appended before an exception
    stays appended. *)
Record Frame : Type := mkFrame {
  all_shots : list DataFrame;
  failed_teams : list (string * string);
  world : World
}.

Definition in_world {A} (m : M World A) : M Frame A :=
  zoom world (fun w f => {| all_shots := all_shots f;
                            failed_teams := failed_teams f;
                            world := w |}) m.

(** [all_shots.append(df)] *)
Definition append_shots (df : DataFrame) : M Frame unit :=
  modify (fun f => {| all_shots := all_shots f ++ [df];
                      failed_teams := failed_teams f;
                      world := world f |}).

(** [failed_teams.append((team_name, msg))] *)
Definition append_failed (team_name msg : string) : M Frame unit :=
  modify (fun f => {| all_shots := all_shots f;
                      failed_teams := failed_teams f ++ [(team_name, msg)];
                      world := world f |}).

(** Truth value of a list. *)
Definition truthy {A} (l : list A) : bool :=
  match l with [] => false | _ => true end.

Section Environment.

(** The static team list of [teams.get_teams()] and the answer of the
    remote endpoint: per team and season, either an exception or the
    tables of [get_data_frames()]. *)
Context (get_teams : list Team).
Context (endpoint : Z -> string -> Result (list DataFrame)).

(** What [pd.read_csv] makes of the text that [to_csv] wrote for a table.
    pandas infers the type of every column again from the text, so the
    table read need not be the table written (a [GAME_ID] column of
    ['0022400001'] comes back as the integers [22400001]), and the call
    can raise. Nothing is assumed about it. *)
Context (read_written : DataFrame -> Result DataFrame).

(** What the parser of [pd.read_csv] makes of a file. *)
Definition parse_csv (file : File) : Result DataFrame :=
  match file with
  | CsvFile d => read_written d
  | Unparseable err => Raise (Exception err)
  end.

(** [pd.read_csv(path)] *)
Definition pd_read_csv (path : string) : M World DataFrame :=
  fun w =>
    match fs w !! path with
    | Some file => (parse_csv file, log (ReadCsv path) w)
    | None => (Raise (FileNotFoundError path), w)
    end.

(** [shotchartdetail.ShotChartDetail(team_id=.., player_id=0, ...)]
    followed by [.get_data_frames()] *)
Definition ShotChartDetail (team_id : Z) (season : string)
  : M World (list DataFrame) :=
  fun w => (endpoint team_id season, log (Request team_id season) w).

(** Lines 45-68: the body of the [try] block for team number [i]. *)
Definition try_team (season : string) (delay : Q) (save_every : Z)
    (i : Z) (team : Team) : M Frame unit :=
  frames <- in_world (ShotChartDetail (id team) season) ;;
  df <- index0 frames ;;
  when (0 <? len df) (append_shots df) ;;;
  r <- (fun f => (mod_ i save_every, f)) ;;
  f <- get ;;
  when ((r =? 0) && truthy (all_shots f))
    (let temp_df := pd_concat (all_shots f) in
     in_world (to_csv temp_df (progress_file season))) ;;;
  in_world (time_sleep delay).

(** Lines 70-73: the handler. *)
Definition except_team (delay : Q) (team : Team) (e : Exn) : M Frame unit :=
  append_failed (full_name team) (str_exn e) ;;;
  in_world (time_sleep delay).

(** Lines 39-73: one iteration of the team loop. *)
Definition team_step (season : string) (delay : Q) (save_every : Z)
    (i : Z) (team : Team) : M Frame unit :=
  try_except (try_team season delay save_every i team)
             (except_team delay team).

(** Lines 39-73: [for i, team in enumerate(all_teams, 1)]. *)
Definition team_loop (season : string) (delay : Q) (save_every : Z)
    (all_teams : list Team) : M Frame unit :=
  for_enumerate (team_step season delay save_every) 1 all_teams.

(** Lines 84-103, run on the frame the loop left. Lines 86-89 only print
    (the columns they read are fields of every row). *)
Definition combine (season : string) : M Frame DataFrame :=
  f <- get ;;
  if truthy (all_shots f) then
    let combined_df := pd_concat (all_shots f) in
    in_world (to_csv combined_df (output_file season)) ;;;
    ex <- in_world (os_path_exists (progress_file season)) ;;
    when ex (in_world (os_remove (progress_file season))) ;;;
    ret combined_df
  else ret pd_DataFrame.

Definition get_all_shots_season (season : string) (delay : Q) (save_every : Z)
  : M World DataFrame :=
  ex <- os_path_exists (output_file season) ;;
  if ex then pd_read_csv (output_file season)
  else
    let all_teams := get_teams in
    fun w =>
      let m := team_loop season delay save_every all_teams ;;;
               combine season in
      let (r, f) := m {| all_shots := []; failed_teams := []; world := w |} in
      (r, world f).

(** *** [get_all_seasons] *)

(** A value of the [results] dictionary. *)
Inductive Outcome : Type :=
| Success (shots : Z) (file : string)
| Failure (error : string).

(** [d[k] = v] on a dictionary kept in insertion order. *)
Fixpoint dict_set {V} (d : list (string * V)) (k : string) (v : V)
  : list (string * V) :=
  match d with
  | [] => [(k, v)]
  | (k', v') :: d' =>
      if String.eqb k' k then (k, v) :: d' else (k', v') :: dict_set d' k v
  end.

(** [d[k]] *)
Fixpoint dict_get {V} (d : list (string * V)) (k : string) : option V :=
  match d with
  | [] => None
  | (k', v') :: d' => if String.eqb k' k then Some v' else dict_get d' k
  end.

(** Line 127: the season string of a year. *)
Definition season_str (year : Z) : string :=
  str year +:+ "-" +:+ zfill 2 (str (year - 2000 + 1)).

(** Line 151: [elapsed / seasons_done] on a [timedelta]; only whether it
    raises matters, the quotient is printed. *)
Definition timedelta_div (seasons_done : Z) : M World unit :=
  if seasons_done =? 0 then raise ZeroDivisionError_div else ret tt.

(** Lines 126-158: one iteration of the season loop. *)
Definition season_step (start_year : Z) (delay : Q) (save_every : Z)
    (results : list (string * Outcome)) (year : Z)
  : M World (list (string * Outcome)) :=
  let season_str := season_str year in
  results <- try_except
    (df <- get_all_shots_season season_str delay save_every ;;
     ret (dict_set results season_str
            (Success (len df) (output_file season_str))))
    (fun e => ret (dict_set results season_str (Failure (str_exn e)))) ;;
  let seasons_done := year - start_year + 1 in
  timedelta_div seasons_done ;;;
  ret results.

(** Lines 168-176: the loop of the summary that accumulates
    [total_shots]. *)
Definition summary_total (results : list (string * Outcome)) : Z :=
  fold_left
    (fun total_shots '(season, info) =>
       match info with
       | Success shots _ => total_shots + shots
       | Failure _ => total_shots
       end)
    results 0.

Definition get_all_seasons (start_year end_year : Z) (delay : Q) (save_every : Z)
  : M World (list (string * Outcome)) :=
  results <- for_each (season_step start_year delay save_every) []
               (range start_year (end_year + 1)) ;;
  let total_shots := summary_total results in
  (fun w => (Ok tt, log (PrintTotal total_shots) w)) ;;;
  ret results.

End Environment.

End Fetch.

(** ** [draw_shot_chart.py] *)

Module Chart.

Import Fetch.

(** What an Axes holds after the calls the module makes. *)
Inductive Artist : Type :=
| Line2D (xs ys : list Z) (linewidth : Z) (color : string)
| Arc (center : Z * Z) (width height theta1 theta2 : Z)
      (facecolor edgecolor : string) (lw : Z)
| Circle (center : Z * Z) (radius : Z) (facecolor edgecolor : string) (lw : Z)
| PathCollection (xs ys : list Z) (c : string) (s : Z) (alpha : Q).

(** The drawing surface: artists in drawing order, the axis limits and
    tick positions last set ([None]: still automatic). *)
Record Axes : Type := mkAxes {
  artists : list Artist;
  xlim : option (Z * Z);
  ylim : option (Z * Z);
  xticks : option (list Z);
  yticks : option (list Z)
}.

Inductive RcValue : Type :=
| RcStr (s : string)
| RcInt (n : Z).

(** [ax.plot(xs, ys, linewidth=.., color=..)] *)
Definition plot (xs ys : list Z) (linewidth : Z) (color : string) (ax : Axes) : Axes :=
  {| artists := artists ax ++ [Line2D xs ys linewidth color];
     xlim := xlim ax; ylim := ylim ax; xticks := xticks ax; yticks := yticks ax |}.

(** [ax.add_artist(a)] *)
Definition add_artist (a : Artist) (ax : Axes) : Axes :=
  {| artists := artists ax ++ [a];
     xlim := xlim ax; ylim := ylim ax; xticks := xticks ax; yticks := yticks ax |}.

(** [ax.scatter(xs, ys, c=.., s=.., alpha=..)] *)
Definition scatter (xs ys : list Z) (c : string) (s : Z) (alpha : Q) (ax : Axes) : Axes :=
  {| artists := artists ax ++ [PathCollection xs ys c s alpha];
     xlim := xlim ax; ylim := ylim ax; xticks := xticks ax; yticks := yticks ax |}.

Definition set_xlim (lo hi : Z) (ax : Axes) : Axes :=
  {| artists := artists ax;
     xlim := Some (lo, hi); ylim := ylim ax; xticks := xticks ax; yticks := yticks ax |}.

Definition set_ylim (lo hi : Z) (ax : Axes) : Axes :=
  {| artists := artists ax;
     xlim := xlim ax; ylim := Some (lo, hi); xticks := xticks ax; yticks := yticks ax |}.

Definition set_xticks (ticks : list Z) (ax : Axes) : Axes :=
  {| artists := artists ax;
     xlim := xlim ax; ylim := ylim ax; xticks := Some ticks; yticks := yticks ax |}.

Definition set_yticks (ticks : list Z) (ax : Axes) : Axes :=
  {| artists := artists ax;
     xlim := xlim ax; ylim := ylim ax; xticks := xticks ax; yticks := Some ticks |}.

(** Lines 5-23. The function mutates the surface it is given and the
    process-wide [mpl.rcParams]; both are returned. *)
Definition create_court (ax : Axes) (color : string) (rcParams : gmap string RcValue)
  : Axes * gmap string RcValue :=
  let ax := plot [-220; -220] [0; 140] 2 color ax in
  let ax := plot [220; 220] [0; 140] 2 color ax in
  let ax := add_artist (Arc (0, 140) 440 315 0 180 "none" color 2) ax in
  let ax := plot [-80; -80] [0; 190] 2 color ax in
  let ax := plot [80; 80] [0; 190] 2 color ax in
  let ax := plot [-60; -60] [0; 190] 2 color ax in
  let ax := plot [60; 60] [0; 190] 2 color ax in
  let ax := plot [-80; 80] [190; 190] 2 color ax in
  let ax := add_artist (Circle (0, 190) 60 "none" color 2) ax in
  let ax := add_artist (Circle (0, 60) 15 "none" color 2) ax in
  let ax := plot [-30; 30] [40; 40] 2 color ax in
  let ax := set_xlim (-250) 250 ax in
  let ax := set_ylim 0 470 ax in
  let ax := set_xticks [] ax in
  let ax := set_yticks [] ax in
  let rcParams := <["font.family" := RcStr "Avenir"]> rcParams in
  let rcParams := <["font.size" := RcInt 18]> rcParams in
  let rcParams := <["axes.linewidth" := RcInt 2]> rcParams in
  (ax, rcParams).

(** [df[col] == v]: the boolean mask, one entry per row. *)
Definition column_eq (col : Shot -> Z) (v : Z) (df : DataFrame) : list bool :=
  map (fun row => col row =? v) df.

(** [df[mask]]: the rows whose mask entry is true, in order. *)
Fixpoint boolean_index (df : DataFrame) (mask : list bool) : DataFrame :=
  match df, mask with
  | row :: df', b :: mask' =>
      if b then row :: boolean_index df' mask' else boolean_index df' mask'
  | _, _ => []
  end.

(** [df[col]] for an integer column, and [series + k] on it: the sum is
    taken in 64-bit arithmetic and wraps around without an error. *)
Definition column (col : Shot -> Z) (df : DataFrame) : list Z := map col df.
Definition series_add (s : list Z) (k : Z) : list Z :=
  map (fun v => wrap_int64 (v + k)) s.

(** Lines 25-30. *)
Definition draw_shots (ax : Axes) (df : DataFrame) : Axes :=
  let made_shots := boolean_index df (column_eq SHOT_MADE_FLAG 1 df) in
  let missed_shots := boolean_index df (column_eq SHOT_MADE_FLAG 0 df) in
  let ax := scatter (column LOC_X made_shots)
                    (series_add (column LOC_Y made_shots) 60)
                    "green" 10 (6 # 10) ax in
  scatter (column LOC_X missed_shots)
          (series_add (column LOC_Y missed_shots) 60)
          "red" 10 (6 # 10) ax.

(** The points of a scatter artist, paired up. *)
Definition points (a : Artist) : list (Z * Z) :=
  match a with
  | PathCollection xs ys _ _ _ => zip xs ys
  | _ => []
  end.

(** The keyword arguments of a call of [ax.hexbin]. *)
Record HexbinCall : Type := mkHexbinCall {
  hb_x : list Z;
  hb_y : list Z;
  hb_gridsize : Z;
  hb_extent : list Z;
  hb_mincnt : Z;
  hb_linewidths : Z;
  hb_edgecolors : string;
  hb_cmap : string;
  hb_norm : string
}.

(** Lines 32-47, up to the call of [ax.hexbin]: the value is the call the
    function makes. The binning and colouring that matplotlib does with
    it is not part of this module. *)
Definition draw_shots_hex (df : DataFrame) (gridsize mincount : Z) : HexbinCall :=
  let x := column LOC_X df in
  let y := series_add (column LOC_Y df) 60 in
  {| hb_x := x; hb_y := y;
     hb_gridsize := gridsize;
     hb_extent := [-250; 250; 0; 470];
     hb_mincnt := mincount;
     hb_linewidths := 0;
     hb_edgecolors := "none";
     hb_cmap := "plasma";
     hb_norm := "LogNorm" |}.

End Chart.

(** ** Vocabulary of the statements *)

Module Vocabulary.

Import Fetch.

(** No dash among the characters of a string. *)
Fixpoint no_dash (s : string) : bool :=
  match s with
  | EmptyString => true
  | String c s' => negb (Ascii.eqb c "-") && no_dash s'
  end.

(** The part of a season string in front of its separating dash: the
    first character and what follows up to the next dash. *)
Fixpoint until_dash (s : string) : string :=
  match s with
  | EmptyString => ""
  | String c s' => if Ascii.eqb c "-" then "" else String c (until_dash s')
  end.

Definition year_part (s : string) : string :=
  match s with
  | EmptyString => ""
  | String c s' => String c (until_dash s')
  end.

(** How the loop classifies the answer for one team: an exception
    (also the [IndexError] of [[0]] on an empty list of tables), a first
    table without rows, or a first table with rows. *)
Inductive TeamOutcome : Type :=
| Failed (e : Exn)
| NoShots
| Shots (df : DataFrame).

Definition team_outcome (endpoint : Z -> string -> Result (list DataFrame))
    (season : string) (team : Team) : TeamOutcome :=
  match endpoint (id team) season with
  | Raise e => Failed e
  | Ok [] => Failed (Exception "list index out of range")
  | Ok (df :: _) => if 0 <? len df then Shots df else NoShots
  end.

(** The table of a team that succeeded with at least one row. *)
Definition team_shots (endpoint : Z -> string -> Result (list DataFrame))
    (season : string) (team : Team) : option DataFrame :=
  match team_outcome endpoint season team with
  | Shots df => Some df
  | _ => None
  end.

(** The tables of the teams that succeeded with rows, in team order. *)
Definition fetched (endpoint : Z -> string -> Result (list DataFrame))
    (season : string) (teams : list Team) : list DataFrame :=
  omap (team_shots endpoint season) teams.

(** Events that change the working directory. *)
Definition is_write (e : Event) : bool :=
  match e with
  | WriteCsv _ _ | Remove _ => true
  | _ => false
  end.

(** Calls of the remote endpoint. *)
Definition is_request (e : Event) : bool :=
  match e with
  | Request _ _ => true
  | _ => false
  end.

(** The frame in which the team loop starts. *)
Definition fresh_frame (w : World) : Frame :=
  {| all_shots := []; failed_teams := []; world := w |}.

(** One attempt of the season driver: the year, the world before the
    call of the fetcher, what the call returned or raised, and the world
    it left. *)
Record SeasonRun : Type := mkSeasonRun {
  year_of : Z;
  before : World;
  result : Result DataFrame;
  after : World
}.

(** The attempts for a list of years, each one started in the world the
    previous one left. *)
Inductive season_runs (fetch : string -> M World DataFrame)
  : World -> list Z -> list SeasonRun -> World -> Prop :=
| runs_nil (w : World) : season_runs fetch w [] [] w
| runs_cons (w w1 w2 : World) (year : Z) (years : list Z)
    (r : Result DataFrame) (runs : list SeasonRun) :
    fetch (season_str year) w = (r, w1) ->
    season_runs fetch w1 years runs w2 ->
    season_runs fetch w (year :: years)
      ({| year_of := year; before := w; result := r; after := w1 |} :: runs) w2.

(** The entry of the run summary that an attempt leads to. *)
Definition outcome_of (run : SeasonRun) : Outcome :=
  match result run with
  | Ok df => Success (len df) (output_file (season_str (year_of run)))
  | Raise e => Failure (str_exn e)
  end.

Definition entry_of (run : SeasonRun) : string * Outcome :=
  (season_str (year_of run), outcome_of run).

(** The shot count of an attempt that returned, zero for one that raised. *)
Definition shots_of_run (run : SeasonRun) : Z :=
  match result run with
  | Ok df => len df
  | Raise _ => 0
  end.

(** The season string as the specification words it: the year, a dash,
    and the next year on two digits. *)
Definition digit (n : Z) : ascii := ascii_of_nat (48 + Z.to_nat n).

Definition two_digits (n : Z) : string :=
  String (digit (n / 10 mod 10)) (String (digit (n mod 10)) "").

Definition season_of_year (year : Z) : string :=
  str year +:+ "-" +:+ two_digits ((year + 1) mod 100).

(** Sleeps and file reads among the events. *)
Definition is_sleep (e : Event) : bool :=
  match e with
  | Sleep _ => true
  | _ => false
  end.

Definition is_read (e : Event) : bool :=
  match e with
  | ReadCsv _ => true
  | _ => false
  end.

(** The calls of the endpoint for a list of teams, in order. *)
Definition requests_of (season : string) (teams : list Team) : list Event :=
  map (fun team => Request (id team) season) teams.

(** What the handler of the team loop appends to [failed_teams] for one
    team: the error of a failed call, or, for a call that returned, the
    error of the modulo when [save_every] is zero. *)
Definition failure_report (endpoint : Z -> string -> Result (list DataFrame))
    (season : string) (save_every : Z) (team : Team) : option (string * string) :=
  match team_outcome endpoint season team with
  | Failed e => Some (full_name team, str_exn e)
  | _ => if save_every =? 0
         then Some (full_name team, str_exn ZeroDivisionError)
         else None
  end.

(** The smallest box that holds an artist, with every coordinate doubled
    (the half height of an arc need not be whole):
    [(2 xmin, 2 xmax, 2 ymin, 2 ymax)]. An arc from 0 to 180 degrees is
    the upper half of its ellipse; any other arc counts with its whole
    ellipse. *)
Definition list_min (l : list Z) : Z := fold_right Z.min (hd 0 l) l.
Definition list_max (l : list Z) : Z := fold_right Z.max (hd 0 l) l.

Definition bounding_box2 (a : Chart.Artist) : Z * Z * Z * Z :=
  match a with
  | Chart.Line2D xs ys _ _ =>
      (2 * list_min xs, 2 * list_max xs, 2 * list_min ys, 2 * list_max ys)
  | Chart.Arc (cx, cy) width height theta1 theta2 _ _ _ =>
      if (theta1 =? 0) && (theta2 =? 180)
      then (2 * cx - width, 2 * cx + width, 2 * cy, 2 * cy + height)
      else (2 * cx - width, 2 * cx + width, 2 * cy - height, 2 * cy + height)
  | Chart.Circle (cx, cy) radius _ _ _ =>
      (2 * (cx - radius), 2 * (cx + radius), 2 * (cy - radius), 2 * (cy + radius))
  | Chart.PathCollection xs ys _ _ _ =>
      (2 * list_min xs, 2 * list_max xs, 2 * list_min ys, 2 * list_max ys)
  end.

(** An artist lies within given axis limits. *)
Definition within_limits (xl yl : Z * Z) (a : Chart.Artist) : Prop :=
  let '(x0, x1, y0, y1) := bounding_box2 a in
  2 * fst xl <= x0 /\ x1 <= 2 * snd xl /\ 2 * fst yl <= y0 /\ y1 <= 2 * snd yl.

(** The stroke colour of a court element. *)
Definition stroke (a : Chart.Artist) : string :=
  match a with
  | Chart.Line2D _ _ _ color => color
  | Chart.Arc _ _ _ _ _ _ edgecolor _ => edgecolor
  | Chart.Circle _ _ _ edgecolor _ => edgecolor
  | Chart.PathCollection _ _ c _ _ => c
  end.

(** Every value of an integer column fits 64 bits, as in an int64
    column; and no value of it leaves the 64 bits when [k] is added. *)
Definition int64_column (col : Shot -> Z) (df : DataFrame) : Prop :=
  forall row, row ∈ df -> is_int64 (col row).

Definition no_overflow (col : Shot -> Z) (k : Z) (df : DataFrame) : Prop :=
  forall row, row ∈ df -> is_int64 (col row + k).

End Vocabulary.

(** ** Sample inputs *)

Module Samples.

Import Fetch Chart.

Definition shot (x y flag : Z) : Shot :=
  {| GAME_ID := StrCell "0022400001"; PLAYER_NAME := StrCell "A. Player";
     TEAM_ID := 1;
     LOC_X := x; LOC_Y := y; SHOT_MADE_FLAG := flag |}.

Definition hawks : Team := {| id := 1; full_name := "Atlanta Hawks" |}.
Definition celtics : Team := {| id := 2; full_name := "Boston Celtics" |}.

(** The same shot in a table read back from a file: the game identifier
    has become an integer. *)
Definition shot_read (x y flag : Z) : Shot :=
  {| GAME_ID := IntCell 22400001; PLAYER_NAME := StrCell "A. Player";
     TEAM_ID := 1;
     LOC_X := x; LOC_Y := y; SHOT_MADE_FLAG := flag |}.

(** A reader for the samples: a text cell that is a decimal integer is
    read as that integer, every other cell as it was written. (In the
    samples the cells of a column are all of the same kind, so reading
    cell by cell and column by column agree.) *)
Definition read_cell (c : Cell) : Cell :=
  match c with
  | StrCell s =>
      match NilZero.int_of_string s with
      | Some i => IntCell (Z.of_int i)
      | None => StrCell s
      end
  | IntCell n => IntCell n
  end.

Definition sample_reader (d : DataFrame) : Result DataFrame :=
  Ok (map (fun row =>
             {| GAME_ID := read_cell (GAME_ID row);
                PLAYER_NAME := read_cell (PLAYER_NAME row);
                TEAM_ID := TEAM_ID row;
                LOC_X := LOC_X row; LOC_Y := LOC_Y row;
                SHOT_MADE_FLAG := SHOT_MADE_FLAG row |}) d).

Definition two_teams : list Team := [hawks; celtics].

(** The first team answers with two rows, the second call times out. *)
Definition second_fails (team_id : Z) (season : string) : Result (list DataFrame) :=
  if team_id =? 1 then Ok [[shot 10 20 1; shot (-35) 80 0]; []]
  else Raise (Exception "Read timed out.").

(** Both teams answer with rows. *)
Definition both_answer (team_id : Z) (season : string) : Result (list DataFrame) :=
  if team_id =? 1 then Ok [[shot 10 20 1; shot (-35) 80 0]; []]
  else Ok [[shot 0 5 1]; []].

(** Every call times out. *)
Definition all_fail (team_id : Z) (season : string) : Result (list DataFrame) :=
  Raise (Exception "Read timed out.").

Definition empty_world : World := {| fs := ∅; trace := [] |}.

(** A directory in which the season 2024-25 is already complete. *)
Definition complete_world : World :=
  {| fs := {[ "nba_shots_2024-25_all.csv" := CsvFile [shot 1 2 1] ]};
     trace := [] |}.

(** A directory in which the output file of 2023-24 is there but empty,
    as after a crash in the middle of the write. *)
Definition corrupt_world : World :=
  {| fs := {[ "nba_shots_2023-24_all.csv"
              := Unparseable "No columns to parse from file" ]};
     trace := [] |}.

(** A directory in which the seasons 2023-24 and 2024-25 are complete. *)
Definition two_seasons_complete : World :=
  {| fs := {[ "nba_shots_2023-24_all.csv" := CsvFile [shot 1 2 1; shot 3 4 0];
              "nba_shots_2024-25_all.csv" := CsvFile [shot 5 6 1] ]};
     trace := [] |}.

Definition empty_axes : Axes :=
  {| artists := []; xlim := None; ylim := None; xticks := None; yticks := None |}.

Definition flags_1_0_1_2 : DataFrame :=
  [shot 10 20 1; shot (-35) 80 0; shot 0 5 1; shot 7 7 2].

End Samples.

(** * Properties *)

(** ** Strings, file names and season strings *)

Module Names.

Import Fetch Vocabulary.

Lemma length_append (a b : string) :
  String.length (a +:+ b) = (String.length a + String.length b)%nat.
Proof. induction a as [|c a IH]; simpl; [reflexivity | now rewrite IH]. Qed.

Lemma append_cons (x : ascii) (a b : string) :
  String x a +:+ b = String x (a +:+ b).
Proof. reflexivity. Qed.

Lemma append_nil (b : string) : "" +:+ b = b.
Proof. reflexivity. Qed.

Lemma append_assoc (a b c : string) : (a +:+ b) +:+ c = a +:+ (b +:+ c).
Proof.
  induction a as [|x a IH]; [reflexivity|].
  rewrite !append_cons. now f_equal.
Qed.

(** Two equal concatenations whose right parts have the same length agree
    part by part. *)
Lemma append_eq_suffix (a b x y : string) :
  a +:+ x = b +:+ y -> String.length x = String.length y -> a = b /\ x = y.
Proof.
  revert b. induction a as [|c a IH]; intros [|c' b] H L;
    rewrite ?append_cons, ?append_nil in H.
  - now split.
  - subst x. simpl in L. rewrite length_append in L. lia.
  - subst y. simpl in L. rewrite length_append in L. lia.
  - injection H as -> H. destruct (IH b H L) as [-> ->]. now split.
Qed.

Lemma output_file_inj (s s' : string) : output_file s = output_file s' -> s = s'.
Proof.
  unfold output_file. intros H. apply String.app_inj in H.
  now apply append_eq_suffix in H as [-> _].
Qed.

Lemma progress_file_inj (s s' : string) : progress_file s = progress_file s' -> s = s'.
Proof.
  unfold progress_file. intros H. apply String.app_inj in H.
  now apply append_eq_suffix in H as [-> _].
Qed.

(** A final file is never a progress file, whatever the two seasons. *)
Lemma output_ne_progress (s s' : string) : output_file s <> progress_file s'.
Proof.
  unfold output_file, progress_file. intros H. apply String.app_inj in H.
  change "_progress.csv" with ("_prog" +:+ "ress.csv") in H.
  rewrite <- append_assoc in H.
  apply append_eq_suffix in H as [_ H]; [discriminate | reflexivity].
Qed.

(** *** [str] is injective and puts a dash nowhere but in front *)

Lemma no_dash_uint (u : uint) : no_dash (NilEmpty.string_of_uint u) = true.
Proof. induction u; simpl; auto. Qed.

Lemma uint_nonempty (u : uint) : u <> Nil -> NilEmpty.string_of_uint u <> "".
Proof. destruct u; simpl; congruence. Qed.

Lemma str_shape (n : Z) : exists c tl, str n = String c tl /\ no_dash tl = true.
Proof.
  unfold str. destruct n as [|p|p]; simpl.
  - eexists _, _. split; reflexivity.
  - pose proof (Unsigned.to_uint_nonnil p) as Hn.
    pose proof (no_dash_uint (Pos.to_uint p)) as Hd.
    destruct (Pos.to_uint p) eqn:E; try congruence; simpl in *;
      eexists _, _; (split; [reflexivity | exact Hd]).
  - pose proof (Unsigned.to_uint_nonnil p) as Hn.
    pose proof (no_dash_uint (Pos.to_uint p)) as Hd.
    destruct (Pos.to_uint p) eqn:E; try congruence; simpl in *;
      eexists _, _; (split; [reflexivity | exact Hd]).
Qed.

Lemma str_inj (a b : Z) : str a = str b -> a = b.
Proof.
  unfold str. intros H. apply to_int_inj.
  assert (Hnn : forall n, Z.to_int n <> Pos Nil /\ Z.to_int n <> Neg Nil).
  { intros [|p|p]; simpl; split; try discriminate;
      intros [= E]; now apply (Unsigned.to_uint_nonnil p). }
  pose proof (NilZero.isi (Z.to_int a) (proj1 (Hnn a)) (proj2 (Hnn a))) as Ha.
  pose proof (NilZero.isi (Z.to_int b) (proj1 (Hnn b)) (proj2 (Hnn b))) as Hb.
  rewrite H in Ha. congruence.
Qed.

Lemma until_dash_append (a t : string) :
  no_dash a = true -> until_dash (a +:+ "-" +:+ t) = a.
Proof.
  change ("-" +:+ t) with (String "-" t).
  induction a as [|c a IH]; simpl; [reflexivity|].
  intros H. apply andb_prop in H as [Hc Ha].
  destruct (Ascii.eqb c "-"); [discriminate|]. now rewrite IH.
Qed.

Lemma year_part_season_str (year : Z) : year_part (season_str year) = str year.
Proof.
  unfold season_str. destruct (str_shape year) as (c & tl & -> & Hd).
  rewrite append_cons. unfold year_part. now rewrite until_dash_append.
Qed.

Lemma season_str_inj (a b : Z) : season_str a = season_str b -> a = b.
Proof.
  intros H. apply str_inj.
  rewrite <- (year_part_season_str a), <- (year_part_season_str b).
  now rewrite H.
Qed.

End Names.

(** ** The season fetcher *)

Module FetcherFacts.

Import Fetch Vocabulary Names.

Section Loop.

Context (get_teams : list Team).
Context (endpoint : Z -> string -> Result (list DataFrame)).
Context (read_written : DataFrame -> Result DataFrame).
Context (season : string) (delay : Q) (save_every : Z).
Hypothesis delay_nonneg : (0 <= delay)%Q.

Abbreviation step := (team_step endpoint season delay save_every).
Abbreviation shots_of := (team_shots endpoint season).

Lemma sleep_ok (w : World) : time_sleep delay w = (Ok tt, log (Sleep delay) w).
Proof.
  unfold time_sleep.
  now rewrite (proj2 (Qle_bool_iff 0 delay) delay_nonneg).
Qed.

Ltac step_done :=
  cbn; eexists; split; [reflexivity|];
  cbn; rewrite ?app_nil_r;
  split; [reflexivity|];
  first
    [ right; split; [reflexivity|];
      unfold log; cbn; rewrite <- ?app_assoc; reflexivity
    | left; split; [reflexivity|];
      split; [unfold log; cbn; rewrite <- ?app_assoc; reflexivity|];
      split; [| intros e' ?; discriminate] ].

(** What one iteration does, by cases: either it writes a checkpoint
    holding everything collected so far, or it leaves the directory as it
    was. Either way it returns normally and [all_shots] grows by the table
    of the team when the team has rows. *)
Lemma team_step_cases (i : Z) (team : Team) (f : Frame) :
  let shots' := all_shots f ++ option_list (shots_of team) in
  exists f', step i team f = (Ok tt, f')
    /\ all_shots f' = shots'
    /\ ((fs (world f') = <[progress_file season := CsvFile (pd_concat shots')]> (fs (world f))
         /\ trace (world f') = trace (world f) ++
              [Request (id team) season;
               WriteCsv (progress_file season) (pd_concat shots');
               Sleep delay]
         /\ shots' <> []
         /\ (forall e, team_outcome endpoint season team <> Failed e))
        \/ (fs (world f') = fs (world f)
            /\ trace (world f') = trace (world f) ++
                 [Request (id team) season; Sleep delay])).
Proof.
  unfold team_step, try_except, try_team, except_team, bind, in_world, zoom,
    ShotChartDetail, team_shots, team_outcome, index0, mod_, when, get,
    append_shots, append_failed, modify, ret, raise.
  cbn beta iota zeta.
  destruct (endpoint (id team) season) as [[|df frames]|e]; cbn.
  - rewrite sleep_ok. step_done.
  - destruct (0 <? len df) eqn:Hlen; cbn;
      (destruct (save_every =? 0) eqn:Hse; cbn;
       [ rewrite sleep_ok; step_done |]);
      (destruct (i `mod` save_every =? 0) eqn:Hmod; cbn;
       [| rewrite sleep_ok; step_done ]).
    + replace (truthy (all_shots f ++ [df])) with true
        by (now destruct (all_shots f)).
      cbn. rewrite sleep_ok. step_done.
      now destruct (all_shots f).
    + destruct (truthy (all_shots f)) eqn:Hshots; cbn;
        rewrite sleep_ok; step_done.
      now destruct (all_shots f).
  - rewrite sleep_ok. step_done.
Qed.

Lemma fetched_cons (t : Team) (l : list Team) :
  fetched endpoint season (t :: l) = option_list (shots_of t) ++ fetched endpoint season l.
Proof. unfold fetched. simpl. now destruct (shots_of t). Qed.

Lemma fetched_app (l1 l2 : list Team) :
  fetched endpoint season (l1 ++ l2)
  = fetched endpoint season l1 ++ fetched endpoint season l2.
Proof.
  induction l1 as [|t l1 IH]; [reflexivity|].
  rewrite <- app_comm_cons, !fetched_cons, IH. now rewrite app_assoc.
Qed.

(** The loop, from any frame and any starting index: it returns normally,
    [all_shots] grows by the tables of the teams with rows, only the
    progress file is touched, and either nothing was written at all or
    the progress file holds what had been collected after some team. *)
Lemma team_loop_cases (teams : list Team) (i : Z) (f : Frame) :
  exists f' evs,
    for_enumerate step i teams f = (Ok tt, f')
    /\ all_shots f' = all_shots f ++ fetched endpoint season teams
    /\ trace (world f') = trace (world f) ++ evs
    /\ (forall p, p <> progress_file season ->
         fs (world f') !! p = fs (world f) !! p)
    /\ (forall e, e ∈ evs -> is_write e = true ->
         exists d, e = WriteCsv (progress_file season) d)
    /\ ((fs (world f') = fs (world f)
         /\ forall e, e ∈ evs -> is_write e = false)
        \/ (exists j, (0 < j <= length teams)%nat
             /\ all_shots f ++ fetched endpoint season (take j teams) <> []
             /\ fs (world f') !! progress_file season
                = Some (CsvFile (pd_concat
                    (all_shots f ++ fetched endpoint season (take j teams)))))).
Proof.
  revert i f. induction teams as [|t teams IH]; intros i f.
  - exists f, []. cbn. rewrite !app_nil_r.
    repeat split; try reflexivity.
    + intros e He. inversion He.
    + left. split; [reflexivity|]. intros e He. inversion He.
  - destruct (team_step_cases i t f) as (f1 & Hrun1 & Hshots1 & Hcase1).
    destruct (IH (i + 1) f1)
      as (f' & evs & Hrun & Hshots & Htrace & Hother & Hwrites & Hcase).
    cbn [for_enumerate]. unfold bind at 1. rewrite Hrun1, Hrun.
    rewrite Hshots1 in *. rewrite fetched_cons.
    destruct Hcase1 as [(Hfs1 & Htr1 & Hne1 & _) | (Hfs1 & Htr1)].
    + eexists f', (_ :: _ :: _ :: evs).
      split; [reflexivity|]. split; [now rewrite Hshots, app_assoc|].
      split; [rewrite Htrace, Htr1, <- app_assoc; reflexivity|].
      split; [intros p Hp; rewrite Hother, Hfs1 by done;
              now apply lookup_insert_ne|].
      split.
      { intros e He Hw.
        apply elem_of_cons in He as [->|He]; [discriminate|].
        apply elem_of_cons in He as [->|He]; [eauto|].
        apply elem_of_cons in He as [->|He]; [discriminate|]. eauto. }
      right. destruct Hcase as [[Hfs _] | (j & Hj & Hne & Hfs)].
      * exists 1%nat. cbn [take]. rewrite fetched_cons. cbn [fetched omap].
        rewrite app_nil_r. split; [cbn; lia|]. split; [done|].
        rewrite Hfs, Hfs1. apply lookup_insert_eq.
      * exists (S j). cbn [take]. rewrite fetched_cons, app_assoc.
        split; [cbn; lia|]. split; done.
    + eexists f', (_ :: _ :: evs).
      split; [reflexivity|]. split; [now rewrite Hshots, app_assoc|].
      split; [rewrite Htrace, Htr1, <- app_assoc; reflexivity|].
      split; [intros p Hp; now rewrite Hother, Hfs1 by done|].
      split.
      { intros e He Hw.
        apply elem_of_cons in He as [->|He]; [discriminate|].
        apply elem_of_cons in He as [->|He]; [discriminate|]. eauto. }
      destruct Hcase as [[Hfs Hnw] | (j & Hj & Hne & Hfs)].
      * left. split; [now rewrite Hfs|].
        intros e He.
        apply elem_of_cons in He as [->|He]; [reflexivity|].
        apply elem_of_cons in He as [->|He]; [reflexivity|]. eauto.
      * right. exists (S j). cbn [take]. rewrite fetched_cons, app_assoc.
        split; [cbn; lia|]. split; done.
Qed.

(** The final step on a frame that collected something: the output file
    is written and the progress file is gone. *)
Lemma combine_nonempty (f : Frame) :
  all_shots f <> [] ->
  exists f' evs,
    combine season f = (Ok (pd_concat (all_shots f)), f')
    /\ fs (world f') !! output_file season
       = Some (CsvFile (pd_concat (all_shots f)))
    /\ fs (world f') !! progress_file season = None
    /\ (forall p, p <> output_file season -> p <> progress_file season ->
         fs (world f') !! p = fs (world f) !! p)
    /\ trace (world f')
       = trace (world f)
         ++ WriteCsv (output_file season) (pd_concat (all_shots f)) :: evs
    /\ (evs = [] \/ evs = [Remove (progress_file season)]).
Proof.
  intros Hne.
  assert (Hout : output_file season <> progress_file season)
    by apply output_ne_progress.
  unfold combine, bind, get, in_world, zoom, to_csv, os_path_exists, when, ret.
  replace (truthy (all_shots f)) with true by (now destruct (all_shots f)).
  cbn.
  rewrite lookup_insert_ne by done.
  destruct (fs (world f) !! progress_file season) as [old|] eqn:Hold.
  - rewrite bool_decide_eq_true_2 by eauto. unfold os_remove. cbn.
    rewrite lookup_insert_ne, Hold by done. cbn.
    eexists _, [Remove (progress_file season)].
    split; [reflexivity|]. cbn.
    split; [now rewrite lookup_delete_ne, lookup_insert_eq by done|].
    split; [apply lookup_delete_eq|].
    split; [intros p Hp1 Hp2; now rewrite lookup_delete_ne, lookup_insert_ne by done|].
    split; [now rewrite <- app_assoc | now right].
  - rewrite bool_decide_eq_false_2 by (intros [? ?]; discriminate). cbn.
    eexists _, [].
    split; [reflexivity|]. cbn.
    split; [apply lookup_insert_eq|].
    split; [now rewrite lookup_insert_ne by done|].
    split; [intros p Hp1 Hp2; now rewrite lookup_insert_ne by done|].
    split; [reflexivity | now left].
Qed.

Lemma combine_empty (f : Frame) :
  all_shots f = [] -> combine season f = (Ok pd_DataFrame, f).
Proof.
  intros Hnil. unfold combine, bind, get, ret. now rewrite Hnil.
Qed.

(** When the output file is absent the function is the loop over the
    team list followed by the final step. *)
Lemma get_all_shots_season_fresh (w : World) :
  fs w !! output_file season = None ->
  get_all_shots_season get_teams endpoint read_written season delay save_every w
  = let (r, f) := bind (team_loop endpoint season delay save_every get_teams)
                       (fun _ => combine season) (fresh_frame w) in
    (r, world f).
Proof.
  intros Habs. unfold get_all_shots_season, bind at 1, os_path_exists.
  rewrite Habs, bool_decide_eq_false_2 by (intros [? ?]; discriminate).
  reflexivity.
Qed.

Lemma len_pd_concat (tables : list DataFrame) :
  len (pd_concat tables) = fold_right Z.add 0 (map len tables).
Proof.
  unfold pd_concat, len. induction tables as [|df tables IH]; [reflexivity|].
  cbn [concat map fold_right]. rewrite length_app, Nat2Z.inj_add. now rewrite IH.
Qed.

Lemma team_shots_nonempty (team : Team) (df : DataFrame) :
  shots_of team = Some df -> 0 < len df.
Proof.
  unfold team_shots, team_outcome.
  destruct (endpoint (id team) season) as [[|df' frames]|e]; try discriminate.
  destruct (0 <? len df') eqn:Hlen; [|discriminate].
  intros [= <-]. now apply Z.ltb_lt.
Qed.

Lemma fetched_nonempty (teams : list Team) :
  Forall (fun df => 0 < len df) (fetched endpoint season teams).
Proof.
  induction teams as [|t teams IH]; [constructor|].
  rewrite fetched_cons. destruct (shots_of t) as [df|] eqn:Hs; cbn; [|exact IH].
  constructor; [now apply (team_shots_nonempty t) | exact IH].
Qed.

Lemma fetched_none (teams : list Team) :
  (forall team, team ∈ teams ->
     forall df, team_outcome endpoint season team <> Shots df) ->
  fetched endpoint season teams = [].
Proof.
  induction teams as [|t teams IH]; intros H; [reflexivity|].
  rewrite fetched_cons, IH.
  - unfold team_shots. pose proof (H t (list_elem_of_here _ _)) as Ht.
    destruct (team_outcome endpoint season t); try reflexivity.
    now destruct (Ht df).
  - intros team Hin. apply H. now apply list_elem_of_further.
Qed.

(** A team whose call fails leaves no checkpoint behind, whatever its
    number: the directory is as it was. *)
Lemma failed_team_writes_nothing (i : Z) (team : Team) (f : Frame) (e : Exn) :
  team_outcome endpoint season team = Failed e ->
  exists f', step i team f = (Ok tt, f')
    /\ all_shots f' = all_shots f
    /\ fs (world f') = fs (world f)
    /\ trace (world f') = trace (world f) ++ [Request (id team) season; Sleep delay].
Proof.
  intros Hfail.
  destruct (team_step_cases i team f) as (f' & Hrun & Hshots & Hcase).
  exists f'. split; [exact Hrun|].
  unfold team_shots in Hshots. rewrite Hfail in Hshots. cbn in Hshots.
  rewrite app_nil_r in Hshots. split; [exact Hshots|].
  destruct Hcase as [(_ & _ & _ & Hnf) | Hcase]; [|exact Hcase].
  now destruct (Hnf e).
Qed.

(** A team whose call returns, with a number that [save_every] divides,
    leaves a checkpoint of everything collected so far, if there is
    anything. *)
Lemma answered_team_writes_checkpoint (i : Z) (team : Team) (f : Frame) :
  (forall e, team_outcome endpoint season team <> Failed e) ->
  save_every <> 0 -> i `mod` save_every = 0 ->
  all_shots f ++ option_list (shots_of team) <> [] ->
  exists f', step i team f = (Ok tt, f')
    /\ fs (world f') !! progress_file season
       = Some (CsvFile (pd_concat (all_shots f ++ option_list (shots_of team)))).
Proof.
  intros Hok Hse Hmod Hne.
  unfold team_step, try_except, try_team, except_team, bind, in_world, zoom,
    ShotChartDetail, index0, mod_, when, get,
    append_shots, append_failed, modify, ret, raise.
  unfold team_shots, team_outcome in *.
  destruct (endpoint (id team) season) as [[|df frames]|e];
    [now destruct (Hok (Exception "list index out of range")) | | now destruct (Hok e)].
  cbn. destruct (save_every =? 0) eqn:Hz; [lia|].
  rewrite Hmod.
  destruct (0 <? len df); cbn in *.
  - replace (truthy (all_shots f ++ [df])) with true
      by (now destruct (all_shots f)).
    cbn. rewrite sleep_ok. eexists. split; [reflexivity|].
    cbn. apply lookup_insert_eq.
  - rewrite app_nil_r in *.
    replace (truthy (all_shots f)) with true by (now destruct (all_shots f)).
    cbn. rewrite sleep_ok. eexists. split; [reflexivity|].
    cbn. apply lookup_insert_eq.
Qed.

(** C1. When the output file of the season exists, the function returns
    what [pd.read_csv] makes of that file (for a file that [to_csv] wrote
    from a table, what pandas reads back from that text), leaves the
    directory as it was, and the only event it adds is the read of that
    file: no call of the endpoint, no write. *)
Theorem existing_season_is_loaded (w : World) (file : File) :
  fs w !! output_file season = Some file ->
  exists w' evs,
    get_all_shots_season get_teams endpoint read_written season delay save_every w
      = (parse_csv read_written file, w')
    /\ (forall d, file = CsvFile d -> parse_csv read_written file = read_written d)
    /\ fs w' = fs w
    /\ trace w' = trace w ++ evs
    /\ evs = [ReadCsv (output_file season)]
    /\ Forall (fun e => is_request e = false /\ is_write e = false) evs.
Proof.
  intros Hfile.
  exists (log (ReadCsv (output_file season)) w), [ReadCsv (output_file season)].
  split.
  - unfold get_all_shots_season, bind, os_path_exists, pd_read_csv.
    rewrite bool_decide_eq_true_2 by (rewrite Hfile; eauto).
    now rewrite Hfile.
  - split; [now intros d ->|].
    repeat split; try reflexivity. repeat constructor.
Qed.

(** C3. When the output file is absent and N >= 1 teams answer with a
    table that has rows, the function returns the concatenation of those
    N tables in team order, that same concatenation is what the output
    file holds afterwards, and its row count is the sum of the N row
    counts (each of them positive). *)
Theorem final_dataset_concatenates_fetched (w : World) :
  fs w !! output_file season = None ->
  fetched endpoint season get_teams <> [] ->
  let tables := fetched endpoint season get_teams in
  exists w',
    get_all_shots_season get_teams endpoint read_written season delay save_every w
      = (Ok (pd_concat tables), w')
    /\ fs w' !! output_file season = Some (CsvFile (pd_concat tables))
    /\ pd_concat tables = concat (omap (team_shots endpoint season) get_teams)
    /\ len (pd_concat tables) = fold_right Z.add 0 (map len tables)
    /\ Forall (fun df => 0 < len df) tables.
Proof.
  intros Habs Hne tables.
  rewrite get_all_shots_season_fresh by done.
  destruct (team_loop_cases get_teams 1 (fresh_frame w))
    as (f & evs & Hrun & Hshots & _).
  cbn [fresh_frame all_shots app] in Hshots.
  destruct (combine_nonempty f) as (f' & evs' & Hcomb & Hout & _);
    [now rewrite Hshots|].
  unfold bind, team_loop. rewrite Hrun, Hcomb, Hshots in *.
  exists (world f'). split; [reflexivity|]. split; [exact Hout|].
  split; [reflexivity|]. split; [apply len_pd_concat | apply fetched_nonempty].
Qed.

(** A run that enters the loop and collects nothing. *)
Lemma fresh_run_without_data (w : World) :
  fs w !! output_file season = None ->
  (forall team, team ∈ get_teams ->
     forall df, team_outcome endpoint season team <> Shots df) ->
  exists w' evs,
    get_all_shots_season get_teams endpoint read_written season delay save_every w
      = (Ok pd_DataFrame, w')
    /\ fs w' = fs w
    /\ fs w' !! output_file season = None
    /\ fs w' !! progress_file season = fs w !! progress_file season
    /\ trace w' = trace w ++ evs
    /\ (forall e, e ∈ evs -> is_write e = false).
Proof.
  intros Habs Hnone.
  rewrite get_all_shots_season_fresh by done.
  destruct (team_loop_cases get_teams 1 (fresh_frame w))
    as (f & evs & Hrun & Hshots & Htrace & _ & _ & Hcase).
  rewrite (fetched_none get_teams Hnone) in Hshots.
  cbn [fresh_frame all_shots world app] in *.
  unfold bind, team_loop. rewrite Hrun, (combine_empty f Hshots).
  destruct Hcase as [[Hfs Hnw] | (j & Hj & Hne & _)].
  - exists (world f), evs. rewrite Hfs. now repeat split.
  - exfalso. apply Hne.
    pose proof (fetched_none get_teams Hnone) as Hall.
    rewrite <- (take_drop j get_teams), fetched_app in Hall.
    now apply app_eq_nil in Hall as [-> _].
Qed.

(** C7. With the output file absent at the start: (a) when at least one
    team answers with rows, the call returns, the output file exists and
    the progress file does not; (b) at any point of the loop before its
    end, reached after the teams [done], if a checkpoint was written since
    the loop began, the progress file exists and holds the concatenation
    of the tables fetched from some non-empty prefix of [done], which is
    not empty. *)
Theorem progress_snapshot_lifecycle (w : World) :
  fs w !! output_file season = None ->
  (fetched endpoint season get_teams <> [] ->
   exists df w',
     get_all_shots_season get_teams endpoint read_written season delay save_every w
       = (Ok df, w')
     /\ is_Some (fs w' !! output_file season)
     /\ fs w' !! progress_file season = None)
  /\ (forall done rest, get_teams = done ++ rest -> rest <> [] ->
      exists f evs,
        team_loop endpoint season delay save_every done (fresh_frame w)
          = (Ok tt, f)
        /\ trace (world f) = trace w ++ evs
        /\ ((exists d, WriteCsv (progress_file season) d ∈ evs) ->
            exists j, (0 < j <= length done)%nat
              /\ (j < length get_teams)%nat
              /\ fetched endpoint season (take j done) <> []
              /\ fs (world f) !! progress_file season
                 = Some (CsvFile (pd_concat
                     (fetched endpoint season (take j done)))))).
Proof.
  intros Habs. split.
  - intros Hne. rewrite get_all_shots_season_fresh by done.
    destruct (team_loop_cases get_teams 1 (fresh_frame w))
      as (f & evs & Hrun & Hshots & _).
    cbn [fresh_frame all_shots app] in Hshots.
    destruct (combine_nonempty f) as (f' & evs' & Hcomb & Hout & Hprog & _);
      [now rewrite Hshots|].
    unfold bind, team_loop. rewrite Hrun, Hcomb.
    exists (pd_concat (all_shots f)), (world f').
    split; [reflexivity|]. split; [rewrite Hout; eauto | exact Hprog].
  - intros done rest Hteams Hrest.
    destruct (team_loop_cases done 1 (fresh_frame w))
      as (f & evs & Hrun & _ & Htrace & _ & _ & Hcase).
    exists f, evs. split; [exact Hrun|]. split; [exact Htrace|].
    intros [d Hd].
    destruct Hcase as [[_ Hnw] | (j & Hj & Hne & Hfs)].
    + specialize (Hnw _ Hd). discriminate.
    + exists j. cbn [fresh_frame all_shots app] in *.
      split; [exact Hj|]. split; [|now split].
      rewrite Hteams, length_app. destruct rest; [done|]. cbn. lia.
Qed.

(** C4. When the output file is absent and no team answers with a table
    that has rows (every team fails, or answers with an empty table), the
    function returns the empty table, the directory is as it was (so
    neither the output file nor the progress file was written), and no
    event it adds is a write or a removal. *)
Theorem no_data_returns_empty_and_writes_nothing (w : World) :
  fs w !! output_file season = None ->
  (forall team, team ∈ get_teams ->
     forall df, team_outcome endpoint season team <> Shots df) ->
  exists w' evs,
    get_all_shots_season get_teams endpoint read_written season delay save_every w
      = (Ok pd_DataFrame, w')
    /\ fs w' = fs w
    /\ fs w' !! output_file season = None
    /\ fs w' !! progress_file season = fs w !! progress_file season
    /\ trace w' = trace w ++ evs
    /\ (forall e, e ∈ evs -> is_write e = false).
Proof. exact (fresh_run_without_data w). Qed.

End Loop.

(** C2. Two teams, a checkpoint every two teams: the first team answers
    with rows, the call for the second fails. After the loop a successful
    result exists and the number of the last team is a multiple of
    [save_every], yet the progress file was never written. *)
Theorem checkpoint_skipped_when_nth_team_fails :
  exists f,
    team_loop Samples.second_fails "2024-25" (6 # 10) 2 Samples.two_teams
      (fresh_frame Samples.empty_world) = (Ok tt, f)
    /\ all_shots f = [[Samples.shot 10 20 1; Samples.shot (-35) 80 0]]
    /\ len Samples.two_teams `mod` 2 = 0
    /\ fs (world f) !! progress_file "2024-25" = None
    /\ trace (world f)
       = [Request 1 "2024-25"; Sleep (6 # 10); Request 2 "2024-25"; Sleep (6 # 10)].
Proof. eexists. repeat split. Qed.

(** The same two teams when both answer: the checkpoint is there. *)
Example checkpoint_written_when_nth_team_answers :
  exists f,
    team_loop Samples.both_answer "2024-25" (6 # 10) 2 Samples.two_teams
      (fresh_frame Samples.empty_world) = (Ok tt, f)
    /\ fs (world f) !! progress_file "2024-25"
       = Some (CsvFile [Samples.shot 10 20 1; Samples.shot (-35) 80 0;
                        Samples.shot 0 5 1]).
Proof. eexists. split; [reflexivity|]. vm_compute. reflexivity. Qed.

End FetcherFacts.

(** ** The season driver *)

Module DriverFacts.

Import Fetch Vocabulary Names.

Lemma dict_set_fresh {V} (d : list (string * V)) (k : string) (v : V) :
  k ∉ map fst d -> dict_set d k v = d ++ [(k, v)].
Proof.
  induction d as [|[k' v'] d IH]; intros Hk; [reflexivity|].
  cbn in *. apply not_elem_of_cons in Hk as [Hne Hk].
  destruct (String.eqb_spec k' k) as [->|_]; [done|].
  now rewrite IH.
Qed.

Lemma dict_get_app_fresh {V} (d1 d2 : list (string * V)) (k : string) :
  k ∉ map fst d1 -> dict_get (d1 ++ d2) k = dict_get d2 k.
Proof.
  induction d1 as [|[k' v'] d1 IH]; intros Hk; [reflexivity|].
  cbn in *. apply not_elem_of_cons in Hk as [Hne Hk].
  destruct (String.eqb_spec k' k) as [->|_]; [done|]. now apply IH.
Qed.

(** Reading a dictionary whose keys are distinct at the key of one of its
    items gives the value of that item. *)
Lemma dict_get_lookup {V} (d : list (string * V)) (i : nat) (k : string) (v : V) :
  NoDup (map fst d) -> d !! i = Some (k, v) -> dict_get d k = Some v.
Proof.
  revert i. induction d as [|[k' v'] d IH]; intros i Hnd Hi; [done|].
  cbn in *. apply NoDup_cons in Hnd as [Hk' Hnd].
  destruct i as [|i]; cbn in Hi.
  - injection Hi as -> ->. now rewrite String.eqb_refl.
  - destruct (String.eqb_spec k' k) as [->|_]; [|eauto].
    exfalso. apply Hk'. apply list_elem_of_lookup_2 in Hi.
    change k with (fst (k, v)). now apply list_elem_of_fmap_2.
Qed.

Lemma summary_total_from (results : list (string * Outcome)) (acc : Z) :
  fold_left
    (fun total_shots '(season, info) =>
       match info with
       | Success shots _ => total_shots + shots
       | Failure _ => total_shots
       end)
    results acc
  = acc + summary_total results.
Proof.
  unfold summary_total. revert acc.
  induction results as [|[k [shots file|err]] results IH]; intros acc; cbn.
  - lia.
  - rewrite (IH (acc + shots)), (IH (0 + shots)). lia.
  - apply IH.
Qed.

Lemma summary_total_entries (runs : list SeasonRun) :
  summary_total (map entry_of runs) = fold_right Z.add 0 (map shots_of_run runs).
Proof.
  induction runs as [|run runs IH]; [reflexivity|].
  unfold summary_total in *. cbn [map fold_left fold_right entry_of].
  unfold outcome_of, shots_of_run at 1.
  destruct (result run) as [df|e].
  - rewrite summary_total_from. unfold summary_total. rewrite IH. lia.
  - exact IH.
Qed.

Lemma season_runs_years fetch w years runs w' :
  season_runs fetch w years runs w' -> map year_of runs = years.
Proof. induction 1; cbn; congruence. Qed.

Lemma season_runs_fetch fetch w years runs w' :
  season_runs fetch w years runs w' ->
  forall run, run ∈ runs ->
    fetch (season_str (year_of run)) (before run) = (result run, after run).
Proof.
  induction 1 as [|w w1 w2 year years r runs Hfetch Hruns IH]; intros run Hin.
  - inversion Hin.
  - apply elem_of_cons in Hin as [->|Hin]; [exact Hfetch | now apply IH].
Qed.

Section Driver.

Context (get_teams : list Team).
Context (endpoint : Z -> string -> Result (list DataFrame)).
Context (read_written : DataFrame -> Result DataFrame).
Context (delay : Q) (save_every : Z).

Abbreviation fetcher :=
  (fun season => get_all_shots_season get_teams endpoint read_written season delay save_every).

(** One iteration of the season loop on a year not before the first. *)
Lemma season_step_run (start_year year : Z) (results : list (string * Outcome))
    (w : World) :
  start_year <= year ->
  let run := {| year_of := year; before := w;
                result := fst (fetcher (season_str year) w);
                after := snd (fetcher (season_str year) w) |} in
  season_step get_teams endpoint read_written start_year delay save_every results year w
  = (Ok (dict_set results (season_str year) (outcome_of run)), after run).
Proof.
  intros Hle run. unfold season_step, bind, try_except, ret, timedelta_div.
  subst run. unfold outcome_of. cbn [result year_of after].
  destruct (get_all_shots_season _ _ _ _ _ _ w) as [[df|e] w1]; cbn;
    (destruct (year - start_year + 1 =? 0) eqn:Hz; [lia | reflexivity]).
Qed.

(** The season loop: every year is attempted in turn, in the world the
    previous attempt left, and each attempt adds its entry at the end of
    the dictionary. *)
Lemma season_loop_runs (start_year : Z) (years : list Z) :
  forall (acc : list (string * Outcome)) (w : World),
    NoDup years ->
    (forall y, y ∈ years -> start_year <= y) ->
    (forall y, y ∈ years -> season_str y ∉ map fst acc) ->
    exists runs w',
      season_runs fetcher w years runs w'
      /\ for_each (season_step get_teams endpoint read_written start_year delay save_every)
           acc years w
         = (Ok (acc ++ map entry_of runs), w').
Proof.
  induction years as [|year years IH]; intros acc w Hnd Hge Hfresh.
  - exists [], w. split; [constructor|]. cbn. now rewrite app_nil_r.
  - apply NoDup_cons in Hnd as [Hyear Hnd].
    cbn [for_each]. unfold bind at 1.
    rewrite season_step_run by (apply Hge; left).
    set (run := {| year_of := year; before := w;
                   result := fst (fetcher (season_str year) w);
                   after := snd (fetcher (season_str year) w) |}).
    rewrite dict_set_fresh by (apply Hfresh; left).
    destruct (IH (acc ++ [(season_str year, outcome_of run)]) (after run))
      as (runs & w' & Hruns & Hloop).
    + exact Hnd.
    + intros y Hy. apply Hge. now right.
    + intros y Hy. rewrite map_app. cbn.
      intros Hin. apply elem_of_app in Hin as [Hin|Hin].
      * revert Hin. apply Hfresh. now right.
      * apply list_elem_of_singleton in Hin. apply season_str_inj in Hin.
        now subst.
    + exists (run :: runs), w'. split.
      * constructor; [apply surjective_pairing | exact Hruns].
      * rewrite Hloop. cbn. now rewrite <- app_assoc.
Qed.

Lemma season_str_keys_nodup (years : list Z) :
  NoDup years -> NoDup (map season_str years).
Proof.
  induction 1 as [|y years Hy Hnd IH]; cbn; constructor; [|exact IH].
  intros Hin. apply list_elem_of_fmap in Hin as (y' & Heq & Hin).
  apply season_str_inj in Heq. now subst.
Qed.

Lemma entry_keys (runs : list SeasonRun) :
  map fst (map entry_of runs) = map season_str (map year_of runs).
Proof. induction runs as [|run runs IH]; cbn; [reflexivity | now rewrite IH]. Qed.

(** The whole driver: the attempts for the years of the range, the
    dictionary of their entries, and the printed total. *)
Lemma get_all_seasons_runs (start_year end_year : Z) (w : World) :
  exists runs w',
    season_runs fetcher w (range start_year (end_year + 1)) runs w'
    /\ get_all_seasons get_teams endpoint read_written start_year end_year delay save_every w
       = (Ok (map entry_of runs),
          log (PrintTotal (summary_total (map entry_of runs))) w')
    /\ NoDup (map fst (map entry_of runs)).
Proof.
  destruct (season_loop_runs start_year (range start_year (end_year + 1)) [] w)
    as (runs & w' & Hruns & Hloop).
  - apply NoDup_seqZ.
  - intros y Hy. apply elem_of_seqZ in Hy. lia.
  - intros y _ Hin. inversion Hin.
  - exists runs, w'. split; [exact Hruns|]. split.
    + unfold get_all_seasons, bind. rewrite Hloop. reflexivity.
    + rewrite entry_keys, (season_runs_years _ _ _ _ _ Hruns).
      apply season_str_keys_nodup, NoDup_seqZ.
Qed.

Lemma entry_recorded (runs : list SeasonRun) (run : SeasonRun) :
  NoDup (map fst (map entry_of runs)) -> run ∈ runs ->
  dict_get (map entry_of runs) (season_str (year_of run)) = Some (outcome_of run).
Proof.
  intros Hnd Hin. apply list_elem_of_lookup_1 in Hin as [i Hi].
  apply (dict_get_lookup _ i); [exact Hnd|].
  now rewrite list_lookup_fmap, Hi.
Qed.

(** C6. Whatever the fetcher does, the driver returns normally after
    printing the total. It attempts every season of the range in
    ascending order, each in the world the previous attempt left; an
    attempt on which the fetcher raises is recorded under its season
    string as a failure carrying the text of the exception; and the total
    printed is the sum of the shot counts of the attempts that returned. *)
Theorem failed_season_is_recorded_and_run_completes
    (start_year end_year : Z) (w : World) :
  exists runs w' results,
    get_all_seasons get_teams endpoint read_written start_year end_year delay save_every w
      = (Ok results, log (PrintTotal (summary_total results)) w')
    /\ season_runs fetcher w (range start_year (end_year + 1)) runs w'
    /\ map year_of runs = range start_year (end_year + 1)
    /\ (forall run, run ∈ runs ->
         fetcher (season_str (year_of run)) (before run)
         = (result run, after run))
    /\ map fst results = map season_str (range start_year (end_year + 1))
    /\ (forall run e, run ∈ runs -> result run = Raise e ->
         dict_get results (season_str (year_of run))
         = Some (Failure (str_exn e)))
    /\ summary_total results = fold_right Z.add 0 (map shots_of_run runs).
Proof.
  destruct (get_all_seasons_runs start_year end_year w)
    as (runs & w' & Hruns & Hrun & Hnd).
  exists runs, w', (map entry_of runs).
  split; [exact Hrun|]. split; [exact Hruns|].
  split; [exact (season_runs_years _ _ _ _ _ Hruns)|].
  split; [exact (season_runs_fetch _ _ _ _ _ Hruns)|].
  split; [now rewrite entry_keys, (season_runs_years _ _ _ _ _ Hruns)|].
  split; [|apply summary_total_entries].
  intros run e Hin Hres. rewrite (entry_recorded runs run Hnd Hin).
  unfold outcome_of. now rewrite Hres.
Qed.

(** C10. In the run summary, an attempt on which the fetcher returned a
    table is a success carrying the row count of that table and the name
    of the season's output file, and an entry is a failure only if the
    fetcher raised on that attempt. In particular an attempt that found
    no output file and got rows from no team (with a delay that is not
    negative) is a success with zero shots, although the file it names
    does not exist after the attempt. *)
Theorem returned_season_is_recorded_as_success
    (start_year end_year : Z) (w : World) :
  exists runs w' results,
    get_all_seasons get_teams endpoint read_written start_year end_year delay save_every w
      = (Ok results, log (PrintTotal (summary_total results)) w')
    /\ season_runs fetcher w (range start_year (end_year + 1)) runs w'
    /\ (forall run df, run ∈ runs -> result run = Ok df ->
         dict_get results (season_str (year_of run))
         = Some (Success (len df) (output_file (season_str (year_of run)))))
    /\ (forall run msg, run ∈ runs ->
         dict_get results (season_str (year_of run)) = Some (Failure msg) ->
         exists e, result run = Raise e /\ msg = str_exn e)
    /\ (forall run, run ∈ runs ->
         (0 <= delay)%Q ->
         fs (before run) !! output_file (season_str (year_of run)) = None ->
         (forall team, team ∈ get_teams -> forall df,
            team_outcome endpoint (season_str (year_of run)) team <> Shots df) ->
         result run = Ok pd_DataFrame
         /\ dict_get results (season_str (year_of run))
            = Some (Success 0 (output_file (season_str (year_of run))))
         /\ fs (after run) !! output_file (season_str (year_of run)) = None).
Proof.
  destruct (get_all_seasons_runs start_year end_year w)
    as (runs & w' & Hruns & Hrun & Hnd).
  exists runs, w', (map entry_of runs).
  split; [exact Hrun|]. split; [exact Hruns|].
  split; [|split].
  - intros run df Hin Hres. rewrite (entry_recorded runs run Hnd Hin).
    unfold outcome_of. now rewrite Hres.
  - intros run msg Hin. rewrite (entry_recorded runs run Hnd Hin).
    unfold outcome_of. destruct (result run) as [df|e]; [discriminate|].
    intros [= <-]. eauto.
  - intros run Hin Hdelay Habs Hnone.
    pose proof (season_runs_fetch _ _ _ _ _ Hruns run Hin) as Hfetch.
    destruct (FetcherFacts.fresh_run_without_data get_teams endpoint read_written
                (season_str (year_of run)) delay save_every Hdelay
                (before run) Habs Hnone)
      as (w1 & evs & Hcall & _ & Hout & _).
    cbv beta in Hfetch. rewrite Hcall in Hfetch. injection Hfetch as Hres Hafter.
    split; [now symmetry|]. split.
    + rewrite (entry_recorded runs run Hnd Hin).
      unfold outcome_of. now rewrite <- Hres.
    + now rewrite <- Hafter.
Qed.

End Driver.

(** A season whose output file does not parse makes the fetcher raise;
    the driver records the failure and goes on to the next season. *)
Example unreadable_season_is_recorded_and_next_is_fetched :
  fst (get_all_seasons Samples.two_teams Samples.both_answer Samples.sample_reader 2023 2024 (6 # 10) 5
         Samples.corrupt_world)
  = Ok [ ("2023-24", Failure "No columns to parse from file");
         ("2024-25", Success 3 "nba_shots_2024-25_all.csv") ].
Proof. vm_compute. reflexivity. Qed.

(** With a negative delay [time.sleep] raises inside the handler of the
    team loop, the fetcher raises, and the driver records the season as
    failed. *)
Example negative_delay_season_is_recorded :
  fst (get_all_seasons Samples.two_teams Samples.both_answer Samples.sample_reader 2024 2024 (-1 # 1) 5
         Samples.empty_world)
  = Ok [ ("2024-25", Failure "sleep length must be non-negative") ].
Proof. vm_compute. reflexivity. Qed.


End DriverFacts.

(** ** Season strings *)

Module SeasonStrings.

Import Fetch Vocabulary.

Example season_str_2000 : season_str 2000 = "2000-01".
Proof. reflexivity. Qed.

Example season_str_2005 : season_str 2005 = "2005-06".
Proof. reflexivity. Qed.

Example season_str_2025 : season_str 2025 = "2025-26".
Proof. reflexivity. Qed.

Example season_str_1999 : season_str 1999 = "1999-00".
Proof. reflexivity. Qed.

(** From 1999 to 2098 the season string is the year followed by the next
    year on two digits. *)
Lemma season_str_in_window (year : Z) :
  1999 <= year <= 2098 -> season_str year = season_of_year year.
Proof.
  intros Hy.
  assert (Hall : forallb (fun y => String.eqb (season_str y) (season_of_year y))
                   (seqZ 1999 100) = true) by (vm_compute; reflexivity).
  rewrite forallb_forall in Hall.
  apply String.eqb_eq, Hall, list_elem_of_In, elem_of_seqZ. lia.
Qed.

(** C5. Outside that window the code does not produce the next year on
    two digits: 1998 gives a doubled dash and "-1" where "1998-99" is due,
    and 2099 gives three digits where "2099-00" is due. *)
Theorem season_str_outside_window :
  season_str 1998 = "1998--1"
  /\ season_of_year 1998 = "1998-99"
  /\ season_str 2099 = "2099-100"
  /\ season_of_year 2099 = "2099-00".
Proof. repeat split; reflexivity. Qed.

End SeasonStrings.

(** ** The court renderer *)

Module ChartFacts.

Import Fetch Chart Vocabulary Samples.

Lemma boolean_index_filter (col : Shot -> Z) (v : Z) (df : DataFrame) :
  boolean_index df (column_eq col v df) = filter (fun row => col row = v) df.
Proof.
  induction df as [|row df IH]; [reflexivity|].
  cbn [column_eq map boolean_index]. fold (column_eq col v df).
  rewrite filter_cons, IH.
  destruct (Z.eqb_spec (col row) v); case_decide; done.
Qed.

Lemma zip_columns (rows : DataFrame) :
  zip (column LOC_X rows) (series_add (column LOC_Y rows) 60)
  = map (fun row => (LOC_X row, wrap_int64 (LOC_Y row + 60))) rows.
Proof.
  unfold column, series_add.
  induction rows as [|row rows IH]; [reflexivity|].
  cbn [map zip zip_with]. now rewrite <- IH.
Qed.

(** A value that fits 64 bits is not changed by wrapping. *)
Lemma wrap_int64_id (z : Z) : is_int64 z -> wrap_int64 z = z.
Proof.
  unfold is_int64, int64_min, int64_max, wrap_int64. intros Hz.
  rewrite Z.mod_small; lia.
Qed.

(** Without overflow the shifted points are the points shifted in the
    integers. *)
Lemma shifted_points_exact (rows : DataFrame) :
  (forall row, row ∈ rows -> is_int64 (LOC_Y row + 60)) ->
  map (fun row => (LOC_X row, wrap_int64 (LOC_Y row + 60))) rows
  = map (fun row => (LOC_X row, LOC_Y row + 60)) rows.
Proof.
  induction rows as [|row rows IH]; intros Hfit; [reflexivity|].
  cbn [map]. rewrite wrap_int64_id by (apply Hfit; left).
  rewrite IH; [reflexivity|]. intros r Hr. apply Hfit. now right.
Qed.

(** C8. For a table whose [LOC_Y] column is an int64 column,
    [draw_shots] adds two scatter artists: a green one whose points are
    the rows with flag 1 and a red one whose points are the rows with
    flag 0, in row order, each row at [LOC_X] and at [LOC_Y + 60] as the
    64-bit sum of the column gives it; that is the integer [LOC_Y + 60]
    for every table in which this sum does not overflow. A row with any
    other flag is in neither scatter. *)
Theorem draw_shots_made_green_missed_red (ax : Axes) (df : DataFrame) :
  int64_column LOC_Y df ->
  exists made missed green red,
    artists (draw_shots ax df) = artists ax ++ [green; red]
    /\ green = PathCollection (map LOC_X made)
                 (map (fun row => wrap_int64 (LOC_Y row + 60)) made)
                 "green" 10 (6 # 10)
    /\ red = PathCollection (map LOC_X missed)
               (map (fun row => wrap_int64 (LOC_Y row + 60)) missed)
               "red" 10 (6 # 10)
    /\ points green = map (fun row => (LOC_X row, wrap_int64 (LOC_Y row + 60))) made
    /\ points red = map (fun row => (LOC_X row, wrap_int64 (LOC_Y row + 60))) missed
    /\ (no_overflow LOC_Y 60 df ->
        points green = map (fun row => (LOC_X row, LOC_Y row + 60)) made
        /\ points red = map (fun row => (LOC_X row, LOC_Y row + 60)) missed)
    /\ made = filter (fun row => SHOT_MADE_FLAG row = 1) df
    /\ missed = filter (fun row => SHOT_MADE_FLAG row = 0) df
    /\ (forall row, row ∈ made <-> row ∈ df /\ SHOT_MADE_FLAG row = 1)
    /\ (forall row, row ∈ missed <-> row ∈ df /\ SHOT_MADE_FLAG row = 0)
    /\ (forall row, SHOT_MADE_FLAG row <> 1 -> SHOT_MADE_FLAG row <> 0 ->
         (row ∉ made) /\ (row ∉ missed)).
Proof.
  intros _.
  exists (filter (fun row => SHOT_MADE_FLAG row = 1) df),
         (filter (fun row => SHOT_MADE_FLAG row = 0) df).
  eexists _, _.
  split.
  { unfold draw_shots, scatter. cbn [artists].
    rewrite !boolean_index_filter, <- app_assoc. reflexivity. }
  split; [unfold column, series_add; now rewrite map_map|].
  split; [unfold column, series_add; now rewrite map_map|].
  split; [apply zip_columns|]. split; [apply zip_columns|].
  split.
  { intros Hfit. cbn [points]. rewrite !zip_columns.
    split; apply shifted_points_exact; intros row Hrow;
      apply Hfit; now apply list_elem_of_filter in Hrow as [_ Hrow]. }
  split; [reflexivity|]. split; [reflexivity|].
  split; [intros row; rewrite list_elem_of_filter; tauto|].
  split; [intros row; rewrite list_elem_of_filter; tauto|].
  intros row H1 H0. rewrite !list_elem_of_filter. tauto.
Qed.

Example draw_shots_flags_1_0_1_2 :
  artists (draw_shots empty_axes flags_1_0_1_2)
  = [ PathCollection [10; 0] [80; 65] "green" 10 (6 # 10);
      PathCollection [-35] [140] "red" 10 (6 # 10) ].
Proof. reflexivity. Qed.

(** At the largest 64-bit value the shifted coordinate wraps around. *)
Example draw_shots_wraps_at_int64_max :
  artists (draw_shots empty_axes [shot 0 int64_max 1])
  = [ PathCollection [0] [-9223372036854775749] "green" 10 (6 # 10);
      PathCollection [] [] "red" 10 (6 # 10) ].
Proof. reflexivity. Qed.

(** C9, as the code has it. [create_court] sets the x limits to -250 and
    250 (the side lines it draws are at -220 and 220), the y limits to 0
    and 470, and empties the tick lists of both axes. *)
Theorem create_court_limits_and_ticks
    (ax : Axes) (color : string) (rcParams : gmap string RcValue) :
  let ax' := fst (create_court ax color rcParams) in
  xlim ax' = Some (-250, 250)
  /\ ylim ax' = Some (0, 470)
  /\ xticks ax' = Some []
  /\ yticks ax' = Some []
  /\ Line2D [-220; -220] [0; 140] 2 color ∈ artists ax'
  /\ Line2D [220; 220] [0; 140] 2 color ∈ artists ax'.
Proof.
  cbn. repeat split; rewrite !elem_of_app, !list_elem_of_singleton; tauto.
Qed.

(** C9, as the claim has it: the x limits would be the court width. They
    are not. *)
Lemma create_court_xlim_is_not_court_width :
  ~ (xlim (fst (create_court empty_axes "black" ∅)) = Some (-220, 220)
     /\ ylim (fst (create_court empty_axes "black" ∅)) = Some (0, 470)).
Proof. cbn. intros [H _]. discriminate. Qed.

End ChartFacts.

(** ** The theorems at the sample inputs *)

Module Witnesses.

Import Fetch Vocabulary Samples.

Lemma delay_06_nonneg : (0 <= 6 # 10)%Q.
Proof. unfold Qle. simpl. lia. Defined.

Lemma existing_season_is_loaded_witness :
  fs complete_world !! output_file "2024-25" = Some (CsvFile [shot 1 2 1])
  /\ exists w',
       get_all_shots_season two_teams both_answer sample_reader "2024-25" (6 # 10) 5
         complete_world
         = (Ok [shot_read 1 2 1], w')
       /\ fs w' = fs complete_world
       /\ trace w' = [ReadCsv "nba_shots_2024-25_all.csv"].
Proof.
  assert (H : fs complete_world !! output_file "2024-25"
              = Some (CsvFile [shot 1 2 1])) by (vm_compute; reflexivity).
  split; [exact H|].
  destruct (FetcherFacts.existing_season_is_loaded two_teams both_answer sample_reader
              "2024-25" (6 # 10) 5 complete_world _ H)
    as (w' & evs & Hrun & _ & Hfs & Htrace & Hevs & _).
  exists w'. split; [exact Hrun|]. split; [exact Hfs|].
  rewrite Htrace, Hevs. reflexivity.
Defined.

Lemma final_dataset_concatenates_fetched_witness :
  (0 <= 6 # 10)%Q
  /\ fs empty_world !! output_file "2024-25" = None
  /\ fetched second_fails "2024-25" two_teams <> []
  /\ exists w',
       get_all_shots_season two_teams second_fails sample_reader "2024-25" (6 # 10) 5 empty_world
         = (Ok [shot 10 20 1; shot (-35) 80 0], w')
       /\ fs w' !! output_file "2024-25"
          = Some (CsvFile [shot 10 20 1; shot (-35) 80 0]).
Proof.
  assert (H1 : fs empty_world !! output_file "2024-25" = None)
    by (vm_compute; reflexivity).
  assert (H2 : fetched second_fails "2024-25" two_teams <> [])
    by (vm_compute; discriminate).
  split; [exact delay_06_nonneg|]. split; [exact H1|]. split; [exact H2|].
  destruct (FetcherFacts.final_dataset_concatenates_fetched two_teams second_fails sample_reader
              "2024-25" (6 # 10) 5 delay_06_nonneg empty_world H1 H2)
    as (w' & Hrun & Hfile & _).
  exists w'. split; [exact Hrun | exact Hfile].
Defined.

Lemma all_fail_no_shots (season : string) (team : Team) (df : DataFrame) :
  team_outcome all_fail season team <> Shots df.
Proof. unfold team_outcome, all_fail. discriminate. Defined.

Lemma no_data_returns_empty_and_writes_nothing_witness :
  (0 <= 6 # 10)%Q
  /\ fs empty_world !! output_file "2024-25" = None
  /\ (forall team, team ∈ two_teams ->
        forall df, team_outcome all_fail "2024-25" team <> Shots df)
  /\ exists w',
       get_all_shots_season two_teams all_fail sample_reader "2024-25" (6 # 10) 5 empty_world
         = (Ok [], w')
       /\ fs w' = ∅.
Proof.
  assert (H1 : fs empty_world !! output_file "2024-25" = None)
    by (vm_compute; reflexivity).
  assert (H2 : forall team, team ∈ two_teams ->
                 forall df, team_outcome all_fail "2024-25" team <> Shots df)
    by (intros team _ df; apply all_fail_no_shots).
  split; [exact delay_06_nonneg|]. split; [exact H1|]. split; [exact H2|].
  destruct (FetcherFacts.no_data_returns_empty_and_writes_nothing two_teams
              all_fail sample_reader "2024-25" (6 # 10) 5 delay_06_nonneg empty_world H1 H2)
    as (w' & evs & Hrun & Hfs & _).
  exists w'. split; [exact Hrun | exact Hfs].
Defined.

Lemma progress_snapshot_lifecycle_witness :
  (0 <= 6 # 10)%Q
  /\ fs empty_world !! output_file "2024-25" = None
  /\ (exists df w',
        get_all_shots_season two_teams both_answer sample_reader "2024-25" (6 # 10) 1 empty_world
          = (Ok df, w')
        /\ is_Some (fs w' !! output_file "2024-25")
        /\ fs w' !! progress_file "2024-25" = None)
  /\ (exists f,
        team_loop both_answer "2024-25" (6 # 10) 1 [hawks]
          (fresh_frame empty_world) = (Ok tt, f)
        /\ is_Some (fs (world f) !! progress_file "2024-25")).
Proof.
  assert (H1 : fs empty_world !! output_file "2024-25" = None)
    by (vm_compute; reflexivity).
  split; [exact delay_06_nonneg|]. split; [exact H1|].
  destruct (FetcherFacts.progress_snapshot_lifecycle two_teams both_answer sample_reader
              "2024-25" (6 # 10) 1 delay_06_nonneg empty_world H1)
    as [Hdone Hcut].
  split.
  - apply Hdone. vm_compute. discriminate.
  - destruct (Hcut [hawks] [celtics])
      as (f & evs & Hrun & Htrace & Hfile); [reflexivity | discriminate |].
    exists f. split; [exact Hrun|].
    destruct Hfile as (j & _ & _ & _ & Hfs).
    + vm_compute in Hrun. injection Hrun as <-. cbn in Htrace. subst evs.
      eexists. apply list_elem_of_further, list_elem_of_here.
    + rewrite Hfs. eauto.
Defined.

Lemma returned_season_is_recorded_as_success_witness :
  exists results w',
    get_all_seasons two_teams all_fail sample_reader 2024 2024 (6 # 10) 5 empty_world
      = (Ok results, w')
    /\ dict_get results "2024-25"
       = Some (Success 0 "nba_shots_2024-25_all.csv")
    /\ fs w' !! "nba_shots_2024-25_all.csv" = None.
Proof.
  destruct (DriverFacts.returned_season_is_recorded_as_success two_teams all_fail sample_reader
              (6 # 10) 5 2024 2024 empty_world)
    as (runs & w' & results & Hrun & Hruns & _ & _ & Hnone).
  exists results, (log (PrintTotal (summary_total results)) w').
  split; [exact Hrun|].
  change (range 2024 (2024 + 1)) with [2024] in Hruns.
  inversion Hruns as [|w0 w1 w2 year years r runs' Hfetch Hrest]; subst.
  inversion Hrest; subst.
  destruct (Hnone _ (list_elem_of_here _ _) delay_06_nonneg) as (_ & Hget & Habs).
  - vm_compute. reflexivity.
  - intros team _ df. apply all_fail_no_shots.
  - split; [exact Hget|]. exact Habs.
Defined.

Lemma flags_sample_fits (row : Shot) :
  row ∈ flags_1_0_1_2 -> is_int64 (LOC_Y row) /\ is_int64 (LOC_Y row + 60).
Proof.
  intros Hin. unfold flags_1_0_1_2 in Hin.
  repeat (apply elem_of_cons in Hin as [->|Hin]); [..|inversion Hin];
    unfold is_int64, int64_min, int64_max; cbn; lia.
Defined.

Lemma draw_shots_made_green_missed_red_witness :
  int64_column LOC_Y flags_1_0_1_2
  /\ no_overflow LOC_Y 60 flags_1_0_1_2
  /\ exists green red,
       Chart.artists (Chart.draw_shots empty_axes flags_1_0_1_2) = [green; red]
       /\ Chart.points green = [(10, 80); (0, 65)]
       /\ Chart.points red = [(-35, 140)].
Proof.
  assert (H1 : int64_column LOC_Y flags_1_0_1_2)
    by (intros row Hin; apply (flags_sample_fits row Hin)).
  assert (H2 : no_overflow LOC_Y 60 flags_1_0_1_2)
    by (intros row Hin; apply (flags_sample_fits row Hin)).
  split; [exact H1|]. split; [exact H2|].
  destruct (ChartFacts.draw_shots_made_green_missed_red empty_axes flags_1_0_1_2 H1)
    as (made & missed & green & red & Hart & _ & _ & _ & _ & Hexact
        & Hmade & Hmissed & _).
  destruct (Hexact H2) as [Hgreen Hred].
  exists green, red. split; [exact Hart|].
  rewrite Hgreen, Hred, Hmade, Hmissed. split; reflexivity.
Defined.

End Witnesses.

(** ** More on the season fetcher *)

Module FetcherExtras.

Import Fetch Vocabulary Names.

(** *** Facts that hold for every delay *)

Section AnyDelay.

Context (get_teams : list Team).
Context (endpoint : Z -> string -> Result (list DataFrame)).
Context (read_written : DataFrame -> Result DataFrame).
Context (season : string) (delay : Q) (save_every : Z).

Abbreviation step := (team_step endpoint season delay save_every).

Ltac unfold_step :=
  unfold team_step, try_except, try_team, except_team, bind, in_world, zoom,
    ShotChartDetail, index0, mod_, when, get, time_sleep,
    append_shots, append_failed, modify, ret, raise, to_csv, log;
  cbn beta iota zeta.

(** One iteration, whether it returns or raises, changes no file but the
    progress file. *)
Lemma team_step_frame (i : Z) (team : Team) (f : Frame) (p : string) :
  p <> progress_file season ->
  fs (world (snd (step i team f))) !! p = fs (world f) !! p.
Proof.
  intros Hp. unfold_step.
  destruct (endpoint (id team) season) as [[|df frames]|e]; cbn;
    try (destruct (Qle_bool 0 delay); reflexivity).
  destruct (0 <? len df); cbn;
    (destruct (save_every =? 0); cbn;
     [destruct (Qle_bool 0 delay); reflexivity|]);
    destruct (i `mod` save_every =? 0); cbn;
    try (destruct (Qle_bool 0 delay); cbn;
         try (destruct (Qle_bool 0 delay)); cbn; reflexivity).
  - destruct (truthy (all_shots f ++ [df])); cbn;
      destruct (Qle_bool 0 delay); cbn;
      rewrite ?lookup_insert_ne by done; reflexivity.
  - destruct (truthy (all_shots f)); cbn;
      destruct (Qle_bool 0 delay); cbn;
      rewrite ?lookup_insert_ne by done; reflexivity.
Qed.

Lemma team_loop_frame (teams : list Team) (i : Z) (f : Frame) (p : string) :
  p <> progress_file season ->
  fs (world (snd (for_enumerate step i teams f))) !! p = fs (world f) !! p.
Proof.
  intros Hp. revert i f. induction teams as [|t teams IH]; intros i f.
  - reflexivity.
  - cbn [for_enumerate]. unfold bind at 1.
    pose proof (team_step_frame i t f p Hp) as Hstep.
    destruct (step i t f) as [[[]|e] f1]; cbn in *.
    + now rewrite IH.
    + exact Hstep.
Qed.

(** The final step never raises and changes no file but the two of the
    season. *)
Lemma combine_frame (f : Frame) (p : string) :
  p <> output_file season -> p <> progress_file season ->
  exists df f', combine season f = (Ok df, f')
    /\ fs (world f') !! p = fs (world f) !! p.
Proof.
  intros Hout Hprog.
  unfold combine, bind, get, in_world, zoom, to_csv, os_path_exists, when, ret.
  destruct (truthy (all_shots f)); cbn; [|eauto].
  destruct (bool_decide (is_Some (<[output_file season:=_]> (fs (world f))
                                   !! progress_file season))) eqn:Hex; cbn.
  - apply bool_decide_eq_true_1 in Hex as [old Hold].
    unfold os_remove. cbn. rewrite Hold. cbn.
    eexists _, _. split; [reflexivity|]. cbn.
    now rewrite lookup_delete_ne, lookup_insert_ne by done.
  - eexists _, _. split; [reflexivity|]. cbn.
    now rewrite lookup_insert_ne by done.
Qed.

(** A call on a season whose output file exists. *)
Lemma existing_run (w : World) (file : File) :
  fs w !! output_file season = Some file ->
  get_all_shots_season get_teams endpoint read_written season delay save_every w
  = (parse_csv read_written file, log (ReadCsv (output_file season)) w).
Proof.
  intros Hfile. unfold get_all_shots_season, bind, os_path_exists, pd_read_csv.
  rewrite bool_decide_eq_true_2 by (rewrite Hfile; eauto).
  now rewrite Hfile.
Qed.

Lemma fetcher_frame (w : World) (p : string) :
  p <> output_file season -> p <> progress_file season ->
  fs (snd (get_all_shots_season get_teams endpoint read_written season delay save_every w)) !! p
  = fs w !! p.
Proof.
  intros Hout Hprog.
  destruct (fs w !! output_file season) as [file|] eqn:Hfile.
  - now rewrite (existing_run w file Hfile).
  - rewrite FetcherFacts.get_all_shots_season_fresh by done.
    unfold bind, team_loop.
    pose proof (team_loop_frame get_teams 1 (fresh_frame w) p Hprog) as Hloop.
    destruct (for_enumerate step 1 get_teams (fresh_frame w)) as [[[]|e] f];
      cbn in Hloop; cbv beta iota; [|exact Hloop].
    destruct (combine_frame f p Hout Hprog) as (df & f' & -> & Hfs).
    cbn. now rewrite Hfs.
Qed.

(** X3. A call of [get_all_shots_season], whatever it returns or raises,
    leaves every file other than the output file and the progress file of
    its season as it found it, and leaves an existing output file of its
    own season as it found it too. *)
Theorem fetcher_touches_only_its_season (w : World) (p : string) :
  let w' := snd (get_all_shots_season get_teams endpoint read_written season delay save_every w) in
  (p <> output_file season -> p <> progress_file season ->
   fs w' !! p = fs w !! p)
  /\ (forall file, fs w !! output_file season = Some file -> fs w' = fs w).
Proof.
  split.
  - apply fetcher_frame.
  - intros file Hfile. now rewrite (existing_run w file Hfile).
Qed.

Lemma negative_delay_sleep : (delay < 0)%Q -> Qle_bool 0 delay = false.
Proof.
  intros Hneg. destruct (Qle_bool 0 delay) eqn:Hle; [|reflexivity].
  apply Qle_bool_iff in Hle. now apply Qle_not_lt in Hle.
Qed.

(** With a negative delay an iteration raises the error of [time.sleep]
    out of the handler, after its call of the endpoint and possibly a
    checkpoint. *)
Lemma negative_delay_step (i : Z) (team : Team) (f : Frame) :
  (delay < 0)%Q ->
  exists f' evs,
    step i team f = (Raise (Exception "sleep length must be non-negative"), f')
    /\ trace (world f') = trace (world f) ++ Request (id team) season :: evs
    /\ (evs = [] \/ exists d, evs = [WriteCsv (progress_file season) d]).
Proof.
  intros Hneg. apply negative_delay_sleep in Hneg. unfold_step. rewrite Hneg.
  destruct (endpoint (id team) season) as [[|df frames]|e]; cbn;
    try (eexists _, []; split; [reflexivity|]; split; [reflexivity | now left]).
  destruct (0 <? len df); cbn;
    (destruct (save_every =? 0); cbn;
     [eexists _, []; split; [reflexivity|]; split; [reflexivity | now left]|]);
    destruct (i `mod` save_every =? 0); cbn;
    try (eexists _, []; split; [reflexivity|]; split; [reflexivity | now left]).
  - destruct (truthy (all_shots f ++ [df])); cbn.
    + eexists _, [_]. split; [reflexivity|]. cbn. rewrite <- app_assoc.
      split; [reflexivity | right; eauto].
    + eexists _, []. split; [reflexivity|]. split; [reflexivity | now left].
  - destruct (truthy (all_shots f)); cbn.
    + eexists _, [_]. split; [reflexivity|]. cbn. rewrite <- app_assoc.
      split; [reflexivity | right; eauto].
    + eexists _, []. split; [reflexivity|]. split; [reflexivity | now left].
Qed.

(** X5. With a negative delay, an absent output file and at least one
    team, the call raises the [ValueError] of [time.sleep] during the
    first team: exactly one call of the endpoint is made, the output file
    is not created, and nothing is removed. *)
Theorem negative_delay_aborts_at_first_team
    (w : World) (team : Team) (rest : list Team) :
  (delay < 0)%Q ->
  get_teams = team :: rest ->
  fs w !! output_file season = None ->
  exists w' evs,
    get_all_shots_season get_teams endpoint read_written season delay save_every w
      = (Raise (Exception "sleep length must be non-negative"), w')
    /\ trace w' = trace w ++ evs
    /\ List.filter is_request evs = [Request (id team) season]
    /\ (forall path, Remove path ∉ evs)
    /\ fs w' !! output_file season = None.
Proof.
  intros Hneg Hteams Habs.
  pose proof (team_step_frame 1 team (fresh_frame w) (output_file season)
                (output_ne_progress season season)) as Hframe.
  rewrite FetcherFacts.get_all_shots_season_fresh by done.
  rewrite Hteams. unfold bind, team_loop. cbn [for_enumerate]. unfold bind.
  destruct (negative_delay_step 1 team (fresh_frame w) Hneg)
    as (f' & evs & Hstep & Htrace & Hevs).
  rewrite Hstep in *. cbn in Hframe. cbv beta iota.
  exists (world f'), (Request (id team) season :: evs).
  split; [reflexivity|]. split; [exact Htrace|].
  split; [|split].
  - destruct Hevs as [-> | [d ->]]; reflexivity.
  - intros path Hin. apply elem_of_cons in Hin as [Hin|Hin]; [discriminate|].
    destruct Hevs as [-> | [d ->]].
    + inversion Hin.
    + apply list_elem_of_singleton in Hin. discriminate.
  - now rewrite Hframe.
Qed.

End AnyDelay.

(** *** Facts for a delay that is not negative *)

Section Loop.

Context (get_teams : list Team).
Context (endpoint : Z -> string -> Result (list DataFrame)).
Context (read_written : DataFrame -> Result DataFrame).
Context (season : string) (delay : Q) (save_every : Z).
Hypothesis delay_nonneg : (0 <= delay)%Q.

Abbreviation step1 := (team_step endpoint season delay save_every).
Abbreviation report := (failure_report endpoint season save_every).

(** What one iteration appends to [failed_teams]; with [save_every] zero
    the directory stays as it was. *)
Lemma team_step_report (i : Z) (team : Team) (f : Frame) :
  exists f', step1 i team f = (Ok tt, f')
    /\ failed_teams f' = failed_teams f ++ option_list (report team)
    /\ (save_every = 0 -> fs (world f') = fs (world f)).
Proof.
  unfold team_step, try_except, try_team, except_team, bind, in_world, zoom,
    ShotChartDetail, index0, mod_, when, get,
    append_shots, append_failed, modify, ret, raise, to_csv,
    failure_report, team_outcome.
  cbn beta iota zeta.
  destruct (endpoint (id team) season) as [[|df frames]|e]; cbn;
    try (rewrite FetcherFacts.sleep_ok by done; cbn;
         eexists; split; [reflexivity|]; split; reflexivity).
  destruct (0 <? len df); cbn;
    (destruct (Z.eqb_spec save_every 0) as [Hz|Hz]; cbn;
     [ rewrite FetcherFacts.sleep_ok by done; cbn;
       eexists; split; [reflexivity|]; split; reflexivity |]);
    destruct (i `mod` save_every =? 0); cbn;
    try (rewrite FetcherFacts.sleep_ok by done; cbn;
         eexists; split; [reflexivity|]; rewrite app_nil_r; split; [reflexivity | done]).
  - destruct (truthy (all_shots f ++ [df])); cbn;
      rewrite FetcherFacts.sleep_ok by done; cbn;
      eexists; (split; [reflexivity|]); rewrite app_nil_r;
      (split; [reflexivity | done]).
  - destruct (truthy (all_shots f)); cbn;
      rewrite FetcherFacts.sleep_ok by done; cbn;
      eexists; (split; [reflexivity|]); rewrite app_nil_r;
      (split; [reflexivity | done]).
Qed.

Lemma omap_cons_list {A B} (g : A -> option B) (x : A) (l : list A) :
  omap g (x :: l) = option_list (g x) ++ omap g l.
Proof. simpl. now destruct (g x). Qed.

Lemma team_loop_report (teams : list Team) (i : Z) (f : Frame) :
  exists f', for_enumerate step1 i teams f = (Ok tt, f')
    /\ failed_teams f' = failed_teams f ++ omap report teams
    /\ (save_every = 0 -> fs (world f') = fs (world f)).
Proof.
  revert i f. induction teams as [|t teams IH]; intros i f.
  - exists f. cbn. now rewrite app_nil_r.
  - destruct (team_step_report i t f) as (f1 & Hrun1 & Hfailed1 & Hfs1).
    destruct (IH (i + 1) f1) as (f' & Hrun & Hfailed & Hfs).
    exists f'. cbn [for_enumerate]. unfold bind at 1. rewrite Hrun1.
    split; [exact Hrun|]. split.
    + now rewrite Hfailed, Hfailed1, <- app_assoc, omap_cons_list.
    + intros Hz. now rewrite Hfs, Hfs1.
Qed.

Lemma omap_pointwise {A B} (g h : A -> option B) (l : list A) :
  (forall x, g x = h x) -> omap g l = omap h l.
Proof.
  intros Hgh. induction l as [|x l IH]; [reflexivity|].
  now rewrite !omap_cons_list, IH, Hgh.
Qed.

Lemma map_fst_report (teams : list Team) :
  (forall team, exists msg, report team = Some (full_name team, msg)) ->
  map fst (omap report teams) = map full_name teams.
Proof.
  intros Hrep. induction teams as [|t teams IH]; [reflexivity|].
  rewrite omap_cons_list, map_app, IH.
  destruct (Hrep t) as (msg & ->). reflexivity.
Qed.

(** The events of the loop: one call of the endpoint per team, in team
    order, one sleep per team, and no file read. *)
Lemma team_loop_events (teams : list Team) (i : Z) (f : Frame) :
  exists f' evs, for_enumerate step1 i teams f = (Ok tt, f')
    /\ trace (world f') = trace (world f) ++ evs
    /\ List.filter is_request evs = requests_of season teams
    /\ length (List.filter is_sleep evs) = length teams
    /\ List.filter is_read evs = [].
Proof.
  revert i f. induction teams as [|t teams IH]; intros i f.
  - exists f, []. cbn. now rewrite app_nil_r.
  - destruct (FetcherFacts.team_step_cases endpoint season delay save_every
                delay_nonneg i t f) as (f1 & Hrun1 & _ & Hcase).
    destruct (IH (i + 1) f1) as (f' & evs & Hrun & Htrace & Hreq & Hsleep & Hread).
    cbn [for_enumerate]. unfold bind at 1. rewrite Hrun1.
    destruct Hcase as [(_ & Htr1 & _) | (_ & Htr1)].
    + exists f', ([Request (id t) season;
                   WriteCsv (progress_file season)
                     (pd_concat (all_shots f
                                 ++ option_list (team_shots endpoint season t)));
                   Sleep delay] ++ evs).
      split; [exact Hrun|].
      split; [rewrite Htrace, Htr1, <- app_assoc; reflexivity|].
      cbn. rewrite Hreq, Hsleep, Hread. done.
    + exists f', ([Request (id t) season; Sleep delay] ++ evs).
      split; [exact Hrun|].
      split; [rewrite Htrace, Htr1, <- app_assoc; reflexivity|].
      cbn. rewrite Hreq, Hsleep, Hread. done.
Qed.

(** A run that enters the loop: its result and its events. *)
Lemma fresh_run_events (w : World) :
  fs w !! output_file season = None ->
  exists w' evs,
    get_all_shots_season get_teams endpoint read_written season delay save_every w
      = (Ok (pd_concat (fetched endpoint season get_teams)), w')
    /\ trace w' = trace w ++ evs
    /\ List.filter is_request evs = requests_of season get_teams
    /\ length (List.filter is_sleep evs) = length get_teams
    /\ List.filter is_read evs = []
    /\ (fetched endpoint season get_teams <> [] ->
        fs w' !! output_file season
        = Some (CsvFile (pd_concat (fetched endpoint season get_teams)))).
Proof.
  intros Habs. rewrite FetcherFacts.get_all_shots_season_fresh by done.
  destruct (team_loop_events get_teams 1 (fresh_frame w))
    as (f & evs & Hrun & Htrace & Hreq & Hsleep & Hread).
  destruct (FetcherFacts.team_loop_cases endpoint season delay save_every
              delay_nonneg get_teams 1 (fresh_frame w))
    as (f0 & evs0 & Hrun0 & Hshots & _).
  rewrite Hrun in Hrun0. injection Hrun0 as <-.
  cbn [fresh_frame all_shots world app] in *.
  unfold bind, team_loop. rewrite Hrun.
  destruct (fetched endpoint season get_teams) as [|df tables] eqn:Hfetched.
  - rewrite (FetcherFacts.combine_empty season f Hshots).
    exists (world f), evs. now repeat split.
  - destruct (FetcherFacts.combine_nonempty season f)
      as (f' & evs' & Hcomb & Hout & _ & _ & Htrace' & Hevs');
      [now rewrite Hshots|].
    rewrite Hcomb, Hshots in *.
    exists (world f'), (evs ++ WriteCsv (output_file season) (pd_concat (df :: tables)) :: evs').
    split; [reflexivity|].
    split; [now rewrite Htrace', Htrace, <- app_assoc|].
    rewrite !List.filter_app, !length_app. cbn [List.filter is_request is_sleep is_read].
    destruct Hevs' as [-> | ->]; cbn; rewrite ?app_nil_r, ?Nat.add_0_r; done.
Qed.

(** X1. A call that finds no output file makes exactly one call of the
    endpoint per team, in the order of the team list, whether the calls
    fail or not; it sleeps once per team and reads no file. *)
Theorem one_request_and_one_sleep_per_team (w : World) :
  fs w !! output_file season = None ->
  exists df w' evs,
    get_all_shots_season get_teams endpoint read_written season delay save_every w = (Ok df, w')
    /\ trace w' = trace w ++ evs
    /\ List.filter is_request evs
       = map (fun team => Request (id team) season) get_teams
    /\ length (List.filter is_sleep evs) = length get_teams
    /\ List.filter is_read evs = [].
Proof.
  intros Habs.
  destruct (fresh_run_events w Habs)
    as (w' & evs & Hrun & Htrace & Hreq & Hsleep & Hread & _).
  now exists (pd_concat (fetched endpoint season get_teams)), w', evs.
Qed.

(** X2. Calling the function a second time after a run that collected
    rows makes no call of the endpoint and no write: the second call
    returns what pandas reads back from the file the first call wrote
    for the table it returned (which need not be that table again), its
    only event is the read of the output file, and the directory stays
    as the first call left it. *)
Theorem second_call_only_reads_the_written_file (w : World) :
  fs w !! output_file season = None ->
  fetched endpoint season get_teams <> [] ->
  exists df w1 w2,
    get_all_shots_season get_teams endpoint read_written season delay save_every w
      = (Ok df, w1)
    /\ fs w1 !! output_file season = Some (CsvFile df)
    /\ get_all_shots_season get_teams endpoint read_written season delay save_every w1
       = (read_written df, w2)
    /\ fs w2 = fs w1
    /\ trace w2 = trace w1 ++ [ReadCsv (output_file season)].
Proof.
  intros Habs Hne.
  destruct (fresh_run_events w Habs) as (w1 & evs & Hrun & _ & _ & _ & _ & Hfile).
  specialize (Hfile Hne).
  exists (pd_concat (fetched endpoint season get_teams)), w1,
         (log (ReadCsv (output_file season)) w1).
  split; [exact Hrun|]. split; [exact Hfile|].
  split; [now rewrite (existing_run get_teams endpoint read_written season
                         delay save_every w1 _ Hfile)|].
  split; reflexivity.
Qed.

(** X6. With [save_every] zero the modulo raises in every iteration whose
    call returned, after the rows were kept: every team is reported in
    [failed_teams], in team order, a team whose call returned with the
    text of the error of [%] ('integer modulo by zero' on CPython 3.11);
    the rows of the teams are collected all the same, and the loop
    writes no checkpoint. *)
Theorem zero_save_every_reports_every_team (w : World) :
  save_every = 0 ->
  exists f,
    team_loop endpoint season delay save_every get_teams (fresh_frame w) = (Ok tt, f)
    /\ map fst (failed_teams f) = map full_name get_teams
    /\ (forall team, team ∈ get_teams ->
         (forall e, team_outcome endpoint season team <> Failed e) ->
         (full_name team, str_exn ZeroDivisionError) ∈ failed_teams f)
    /\ str_exn ZeroDivisionError = "integer modulo by zero"
    /\ all_shots f = fetched endpoint season get_teams
    /\ fs (world f) = fs w.
Proof.
  intros Hz.
  destruct (team_loop_report get_teams 1 (fresh_frame w)) as (f & Hrun & Hfailed & Hfs).
  destruct (FetcherFacts.team_loop_cases endpoint season delay save_every
              delay_nonneg get_teams 1 (fresh_frame w))
    as (f0 & evs0 & Hrun0 & Hshots & _).
  rewrite Hrun in Hrun0. injection Hrun0 as <-.
  cbn [fresh_frame failed_teams all_shots world app] in *.
  exists f. split; [exact Hrun|].
  assert (Hrep : forall team, exists msg, report team = Some (full_name team, msg)
            /\ ((forall e, team_outcome endpoint season team <> Failed e) ->
                msg = str_exn ZeroDivisionError)).
  { intros team. unfold failure_report. rewrite Hz. cbn.
    destruct (team_outcome endpoint season team) as [e| |df].
    - exists (str_exn e). split; [reflexivity|]. intros H. now destruct (H e).
    - eexists. split; reflexivity.
    - eexists. split; reflexivity. }
  split; [|split; [|split; [reflexivity | split; [exact Hshots | now apply Hfs]]]].
  - rewrite Hfailed. apply map_fst_report. intros team.
    destruct (Hrep team) as (msg & Hmsg & _). eauto.
  - intros team Hin Hok. rewrite Hfailed.
    apply list_elem_of_omap. exists team. split; [exact Hin|].
    destruct (Hrep team) as (msg & -> & Hmsg). now rewrite (Hmsg Hok).
Qed.

(** X7. With [save_every] not zero, [failed_teams] after the loop lists
    exactly the teams whose call failed, in team order, each with its name
    and the text of its error. *)
Theorem failed_teams_lists_the_failed_calls (w : World) :
  save_every <> 0 ->
  exists f,
    team_loop endpoint season delay save_every get_teams (fresh_frame w) = (Ok tt, f)
    /\ failed_teams f
       = omap (fun team =>
                 match team_outcome endpoint season team with
                 | Failed e => Some (full_name team, str_exn e)
                 | _ => None
                 end) get_teams
    /\ (forall name msg, (name, msg) ∈ failed_teams f <->
         exists team e, team ∈ get_teams
           /\ team_outcome endpoint season team = Failed e
           /\ name = full_name team /\ msg = str_exn e).
Proof.
  intros Hnz.
  destruct (team_loop_report get_teams 1 (fresh_frame w)) as (f & Hrun & Hfailed & _).
  cbn [fresh_frame failed_teams app] in Hfailed.
  exists f. split; [exact Hrun|].
  assert (Heq : failed_teams f
       = omap (fun team =>
                 match team_outcome endpoint season team with
                 | Failed e => Some (full_name team, str_exn e)
                 | _ => None
                 end) get_teams).
  { rewrite Hfailed. apply omap_pointwise. intros team.
    unfold failure_report. destruct (Z.eqb_spec save_every 0); [done|].
    now destruct (team_outcome endpoint season team). }
  split; [exact Heq|].
  intros name msg. rewrite Heq, list_elem_of_omap. split.
  - intros (team & Hin & Hsome).
    destruct (team_outcome endpoint season team) as [e| |df] eqn:Hout;
      try discriminate.
    injection Hsome as <- <-. now exists team, e.
  - intros (team & e & Hin & Hout & -> & ->).
    exists team. split; [exact Hin|]. now rewrite Hout.
Qed.

(** X8. At any point of the loop, reached after the teams [done] of the
    list, a progress file written since the loop began holds a prefix of
    the table that the completed run returns. *)
Theorem checkpoint_is_a_prefix_of_the_final_table
    (w : World) (done rest : list Team) :
  get_teams = done ++ rest ->
  fs w !! output_file season = None ->
  exists f evs final w',
    team_loop endpoint season delay save_every done (fresh_frame w) = (Ok tt, f)
    /\ trace (world f) = trace w ++ evs
    /\ get_all_shots_season get_teams endpoint read_written season delay save_every w
       = (Ok final, w')
    /\ ((exists d, WriteCsv (progress_file season) d ∈ evs) ->
        exists snapshot later,
          fs (world f) !! progress_file season = Some (CsvFile snapshot)
          /\ final = snapshot ++ later).
Proof.
  intros Hteams Habs.
  destruct (FetcherFacts.team_loop_cases endpoint season delay save_every
              delay_nonneg done 1 (fresh_frame w))
    as (f & evs & Hrun & _ & Htrace & _ & _ & Hcase).
  destruct (fresh_run_events w Habs) as (w' & evs' & Hfinal & _).
  exists f, evs, (pd_concat (fetched endpoint season get_teams)), w'.
  split; [exact Hrun|]. split; [exact Htrace|]. split; [exact Hfinal|].
  intros [d Hd].
  destruct Hcase as [[_ Hnw] | (j & Hj & Hne & Hfs)].
  - specialize (Hnw _ Hd). discriminate.
  - cbn [fresh_frame all_shots app] in *.
    exists (pd_concat (fetched endpoint season (take j done))),
           (pd_concat (fetched endpoint season (drop j done ++ rest))).
    split; [exact Hfs|].
    unfold pd_concat. rewrite <- concat_app.
    rewrite <- (FetcherFacts.fetched_app endpoint season).
    now rewrite app_assoc, take_drop, Hteams.
Qed.

End Loop.

(** *** One iteration, as a user of the loop sees it *)

Section Steps.

Context (endpoint : Z -> string -> Result (list DataFrame)).
Context (season : string) (delay : Q) (save_every : Z).
Hypothesis delay_nonneg : (0 <= delay)%Q.

(** X9. An iteration whose call of the endpoint returns, for a team
    number that [save_every] divides, leaves in the progress file
    everything collected up to and including that team, provided there is
    anything; the rows of later teams are not in it. *)
Theorem answered_nth_team_leaves_a_checkpoint (i : Z) (team : Team) (f : Frame) :
  (forall e, team_outcome endpoint season team <> Failed e) ->
  save_every <> 0 -> i `mod` save_every = 0 ->
  all_shots f ++ option_list (team_shots endpoint season team) <> [] ->
  exists f', team_step endpoint season delay save_every i team f = (Ok tt, f')
    /\ fs (world f') !! progress_file season
       = Some (CsvFile (pd_concat
           (all_shots f ++ option_list (team_shots endpoint season team)))).
Proof.
  exact (FetcherFacts.answered_team_writes_checkpoint endpoint season delay
           save_every delay_nonneg i team f).
Qed.

(** X10. An iteration whose call of the endpoint fails returns normally
    all the same: it keeps what was collected, changes no file, whatever
    the team number, and still sleeps after the call. *)
Theorem failed_team_is_skipped (i : Z) (team : Team) (f : Frame) (e : Exn) :
  team_outcome endpoint season team = Failed e ->
  exists f', team_step endpoint season delay save_every i team f = (Ok tt, f')
    /\ all_shots f' = all_shots f
    /\ fs (world f') = fs (world f)
    /\ trace (world f') = trace (world f) ++ [Request (id team) season; Sleep delay].
Proof.
  exact (FetcherFacts.failed_team_writes_nothing endpoint season delay
           save_every delay_nonneg i team f e).
Qed.

End Steps.

End FetcherExtras.

(** ** More on the season driver *)

Module DriverExtras.

Import Fetch Vocabulary Names.

Section Driver.

Context (get_teams : list Team).
Context (endpoint : Z -> string -> Result (list DataFrame)).
Context (read_written : DataFrame -> Result DataFrame).
Context (delay : Q) (save_every : Z).

Abbreviation fetcher :=
  (fun season => get_all_shots_season get_teams endpoint read_written season delay save_every).

(** The attempts of the driver keep every output file that exists. *)
Lemma runs_keep_output_files w years runs w' :
  season_runs fetcher w years runs w' ->
  forall season file,
    fs w !! output_file season = Some file ->
    fs w' !! output_file season = Some file.
Proof.
  induction 1 as [|w w1 w2 year years r runs Hfetch Hruns IH];
    intros season file Hfile; [exact Hfile|].
  apply IH. cbv beta in Hfetch.
  destruct (decide (season_str year = season)) as [<-|Hne].
  - rewrite (FetcherExtras.existing_run _ _ _ _ _ _ w file Hfile) in Hfetch.
    now injection Hfetch as _ <-.
  - replace w1 with (snd (fetcher (season_str year) w))
      by (cbv beta; now rewrite Hfetch).
    cbv beta. rewrite FetcherExtras.fetcher_frame; [exact Hfile| |].
    + intros Heq. apply output_file_inj in Heq. congruence.
    + apply output_ne_progress.
Qed.

(** The attempts of the driver change no file but the output and
    progress files of their seasons. *)
Lemma runs_frame w years runs w' :
  season_runs fetcher w years runs w' ->
  forall p,
    (forall year, year ∈ years ->
       p <> output_file (season_str year) /\ p <> progress_file (season_str year)) ->
    fs w' !! p = fs w !! p.
Proof.
  induction 1 as [|w w1 w2 year years r runs Hfetch Hruns IH];
    intros p Hp; [reflexivity|].
  rewrite IH by (intros y Hy; apply Hp; now right).
  replace w1 with (snd (fetcher (season_str year) w))
    by (cbv beta; now rewrite Hfetch).
  destruct (Hp year (list_elem_of_here _ _)) as [Hout Hprog].
  cbv beta. now apply FetcherExtras.fetcher_frame.
Qed.

(** X4. Whatever happens during the run, the driver leaves every season
    output file that existed when it started with the content it had, and
    it changes no file other than the output and progress files of the
    seasons of its range. *)
Theorem driver_keeps_existing_season_files (start_year end_year : Z) (w : World) :
  let w' := snd (get_all_seasons get_teams endpoint read_written start_year end_year
                   delay save_every w) in
  (forall season file,
     fs w !! output_file season = Some file ->
     fs w' !! output_file season = Some file)
  /\ (forall p,
       (forall year, start_year <= year <= end_year ->
          p <> output_file (season_str year)
          /\ p <> progress_file (season_str year)) ->
       fs w' !! p = fs w !! p).
Proof.
  destruct (DriverFacts.get_all_seasons_runs get_teams endpoint read_written delay save_every
              start_year end_year w) as (runs & w1 & Hruns & Hrun & _).
  rewrite Hrun. cbn [snd log fs]. split.
  - exact (runs_keep_output_files _ _ _ _ Hruns).
  - intros p Hp. apply (runs_frame _ _ _ _ Hruns).
    intros year Hy. apply Hp. apply elem_of_seqZ in Hy. lia.
Qed.

(** When every season of the list has an output file, the attempts only
    read. *)
Lemma runs_all_complete w years runs w' :
  season_runs fetcher w years runs w' ->
  (forall year, year ∈ years ->
     is_Some (fs w !! output_file (season_str year))) ->
  fs w' = fs w
  /\ trace w' = trace w ++ map (fun year => ReadCsv (output_file (season_str year))) years
  /\ (forall run, run ∈ runs ->
       exists file, fs w !! output_file (season_str (year_of run)) = Some file
                    /\ result run = parse_csv read_written file).
Proof.
  induction 1 as [|w w1 w2 year years r runs Hfetch Hruns IH]; intros Hall.
  - split; [reflexivity|]. split; [now rewrite app_nil_r|].
    intros run Hin. inversion Hin.
  - destruct (Hall year (list_elem_of_here _ _)) as [file Hfile].
    cbv beta in Hfetch.
    rewrite (FetcherExtras.existing_run _ _ _ _ _ _ w _ Hfile) in Hfetch.
    injection Hfetch as <- <-.
    destruct IH as (Hfs & Htrace & Hres).
    { intros y Hy. cbn [log fs]. apply Hall. now right. }
    cbn [log fs trace] in *.
    split; [exact Hfs|]. split; [now rewrite Htrace, <- app_assoc|].
    intros run Hin. apply elem_of_cons in Hin as [->|Hin]; [|now apply Hres].
    exists file. now split.
Qed.

(** X14. When the output file of every season of the range exists and
    parses, the driver makes no call of the endpoint and writes nothing:
    it reads each file once, in year order, prints the total, and records
    every season as a success with the row count of the table its file
    parses to. *)
Theorem complete_seasons_are_only_read (start_year end_year : Z) (w : World) :
  (forall year, start_year <= year <= end_year ->
     exists file d, fs w !! output_file (season_str year) = Some file
                    /\ parse_csv read_written file = Ok d) ->
  exists results w',
    get_all_seasons get_teams endpoint read_written start_year end_year delay save_every w
      = (Ok results, w')
    /\ fs w' = fs w
    /\ trace w'
       = trace w
         ++ map (fun year => ReadCsv (output_file (season_str year)))
              (range start_year (end_year + 1))
         ++ [PrintTotal (summary_total results)]
    /\ (forall year file d, start_year <= year <= end_year ->
         fs w !! output_file (season_str year) = Some file ->
         parse_csv read_written file = Ok d ->
         dict_get results (season_str year)
         = Some (Success (len d) (output_file (season_str year)))).
Proof.
  intros Hall.
  destruct (DriverFacts.get_all_seasons_runs get_teams endpoint read_written delay save_every
              start_year end_year w) as (runs & w1 & Hruns & Hrun & Hnd).
  destruct (runs_all_complete _ _ _ _ Hruns) as (Hfs & Htrace & Hres).
  { intros year Hy. apply elem_of_seqZ in Hy.
    destruct (Hall year) as (file & d & Hfile & _); [lia | eauto]. }
  exists (map entry_of runs), (log (PrintTotal (summary_total (map entry_of runs))) w1).
  split; [exact Hrun|]. split; [exact Hfs|].
  split; [cbn [log trace]; now rewrite Htrace, <- app_assoc|].
  intros year file d Hy Hfile Hparse.
  assert (Hin : year ∈ map year_of runs).
  { rewrite (DriverFacts.season_runs_years _ _ _ _ _ Hruns).
    apply elem_of_seqZ. lia. }
  apply list_elem_of_fmap in Hin as (run & -> & Hin).
  rewrite (DriverFacts.entry_recorded runs run Hnd Hin).
  destruct (Hres run Hin) as (file' & Hfile' & Hres').
  unfold outcome_of. rewrite Hres'.
  replace file' with file by congruence. now rewrite Hparse.
Qed.

(** X13. The run summary has one entry per year of the range, so none
    when the last year is before the first; in that case the driver does
    nothing but print a total of zero. *)
Theorem summary_has_one_entry_per_year (start_year end_year : Z) (w : World) :
  (exists results w',
     get_all_seasons get_teams endpoint read_written start_year end_year delay save_every w
       = (Ok results, w')
     /\ length results = Z.to_nat (end_year - start_year + 1))
  /\ (end_year < start_year ->
      get_all_seasons get_teams endpoint read_written start_year end_year delay save_every w
      = (Ok [], log (PrintTotal 0) w)).
Proof.
  split.
  - destruct (DriverFacts.get_all_seasons_runs get_teams endpoint read_written delay save_every
                start_year end_year w) as (runs & w1 & Hruns & Hrun & _).
    eexists _, _. split; [exact Hrun|].
    rewrite length_map, <- (length_map year_of),
      (DriverFacts.season_runs_years _ _ _ _ _ Hruns).
    unfold range. rewrite length_seqZ. f_equal. lia.
  - intros Hlt. unfold get_all_seasons, range.
    rewrite seqZ_nil by lia. reflexivity.
Qed.

End Driver.

(** X12. Different years have different season strings, hence different
    output files and different progress files, also outside the years for
    which the string has its usual form; and no output file is the
    progress file of any season. *)
Theorem distinct_years_have_distinct_files (year1 year2 : Z) :
  year1 <> year2 ->
  season_str year1 <> season_str year2
  /\ output_file (season_str year1) <> output_file (season_str year2)
  /\ progress_file (season_str year1) <> progress_file (season_str year2)
  /\ output_file (season_str year1) <> progress_file (season_str year2).
Proof.
  intros Hne. split; [|split; [|split]].
  - intros H. now apply season_str_inj in H.
  - intros H. now apply output_file_inj, season_str_inj in H.
  - intros H. now apply progress_file_inj, season_str_inj in H.
  - apply output_ne_progress.
Qed.

(** X11. For the years 1999 to 2098 the season string is the year, a
    dash and the last two digits of the next year, seven characters. *)
Theorem season_string_of_usual_years (year : Z) :
  1999 <= year <= 2098 ->
  season_str year = str year +:+ "-" +:+ two_digits ((year + 1) mod 100)
  /\ String.length (season_str year) = 7%nat.
Proof.
  intros Hy.
  assert (Hall : forallb (fun y => Nat.eqb (String.length (season_str y)) 7)
                   (seqZ 1999 100) = true) by (vm_compute; reflexivity).
  rewrite forallb_forall in Hall.
  split; [exact (SeasonStrings.season_str_in_window year Hy)|].
  apply Nat.eqb_eq, Hall, list_elem_of_In, elem_of_seqZ. lia.
Qed.

End DriverExtras.

(** ** More on the court renderer *)

Module ChartExtras.

Import Fetch Chart Vocabulary.

(** X15. [create_court] keeps what the surface already shows and draws
    eleven elements after it, every one stroked in the colour given and
    every one within the axis limits the function sets. *)
Theorem create_court_draws_eleven_elements
    (ax : Axes) (color : string) (rcParams : gmap string RcValue) :
  exists court,
    artists (fst (create_court ax color rcParams)) = artists ax ++ court
    /\ length court = 11%nat
    /\ Forall (fun a => stroke a = color) court
    /\ Forall (within_limits (-250, 250) (0, 470)) court.
Proof.
  eexists. split.
  - cbn. rewrite <- !app_assoc. reflexivity.
  - split; [reflexivity|]. split.
    + cbn [app]. repeat (constructor; [reflexivity|]). constructor.
    + cbn [app].
      repeat (constructor; [unfold within_limits; cbn; lia|]). constructor.
Qed.

(** X16. [create_court] sets three entries of [mpl.rcParams] (font family,
    font size, axes line width) and leaves every other entry alone; the
    axis limits, the ticks and the three entries it sets do not depend on
    the surface, the colour or the earlier settings, so a second call
    changes none of them. *)
Theorem create_court_settings
    (ax : Axes) (color : string) (rcParams : gmap string RcValue) :
  let rc' := snd (create_court ax color rcParams) in
  rc' !! "font.family" = Some (RcStr "Avenir")
  /\ rc' !! "font.size" = Some (RcInt 18)
  /\ rc' !! "axes.linewidth" = Some (RcInt 2)
  /\ (forall key, key <> "font.family" -> key <> "font.size" ->
        key <> "axes.linewidth" -> rc' !! key = rcParams !! key)
  /\ (forall ax2 color2,
        let again := create_court ax2 color2 rc' in
        snd again = rc'
        /\ xlim (fst again) = xlim (fst (create_court ax color rcParams))
        /\ ylim (fst again) = ylim (fst (create_court ax color rcParams))
        /\ xticks (fst again) = xticks (fst (create_court ax color rcParams))
        /\ yticks (fst again) = yticks (fst (create_court ax color rcParams))).
Proof.
  cbn [create_court snd].
  split; [now rewrite !lookup_insert_ne, lookup_insert_eq by discriminate|].
  split; [now rewrite lookup_insert_ne, lookup_insert_eq by discriminate|].
  split; [now rewrite lookup_insert_eq|].
  split; [intros key H1 H2 H3; now rewrite !lookup_insert_ne by congruence|].
  intros ax2 color2. cbn zeta. cbn [snd].
  split; [|split; [|split; [|split]]; reflexivity].
  apply map_eq. intros key. rewrite !lookup_insert.
  repeat case_decide; congruence.
Qed.

Lemma disjoint_filters_length (df : list Shot) :
  (length (filter (fun row => SHOT_MADE_FLAG row = 1)%Z df)
   + length (filter (fun row => SHOT_MADE_FLAG row = 0)%Z df) <= length df)%nat
  /\ ((forall row, row ∈ df -> SHOT_MADE_FLAG row = 0 \/ SHOT_MADE_FLAG row = 1)%Z ->
      (length (filter (fun row => SHOT_MADE_FLAG row = 1)%Z df)
       + length (filter (fun row => SHOT_MADE_FLAG row = 0)%Z df) = length df)%nat).
Proof.
  induction df as [|row df [IHle IHeq]]; [split; reflexivity|].
  rewrite !filter_cons. split.
  - repeat case_decide; cbn; lia.
  - intros Hall.
    assert (Heq := IHeq (fun r Hr => Hall r (list_elem_of_further _ _ _ Hr))).
    destruct (Hall row (list_elem_of_here _ _)) as [H0|H1];
      repeat case_decide; cbn; lia.
Qed.

(** X18. The two scatters of [draw_shots] never hold more points than the
    table has rows; they hold exactly as many when every flag is 0 or 1,
    and none for a table without rows. *)
Theorem draw_shots_point_counts (ax : Axes) (df : DataFrame) :
  exists green red,
    artists (draw_shots ax df) = artists ax ++ [green; red]
    /\ (length (points green) + length (points red) <= length df)%nat
    /\ ((forall row, row ∈ df -> SHOT_MADE_FLAG row = 0 \/ SHOT_MADE_FLAG row = 1) ->
        (length (points green) + length (points red) = length df)%nat)
    /\ (df = [] -> points green = [] /\ points red = []).
Proof.
  eexists _, _. split.
  { unfold draw_shots, scatter. cbn [artists]. rewrite <- app_assoc. reflexivity. }
  cbn [points]. rewrite !ChartFacts.zip_columns, !length_map,
    !ChartFacts.boolean_index_filter.
  destruct (disjoint_filters_length df) as [Hle Heq].
  split; [exact Hle|]. split; [exact Heq|].
  intros ->. split; reflexivity.
Qed.

(** X17. [draw_shots] changes neither the axis limits nor the ticks and
    keeps what was drawn before, so shots drawn on a court keep the court
    and its limits; the green points are drawn before the red ones. *)
Theorem draw_shots_keeps_the_court
    (ax : Axes) (color : string) (rcParams : gmap string RcValue) (df : DataFrame) :
  xlim (draw_shots ax df) = xlim ax
  /\ ylim (draw_shots ax df) = ylim ax
  /\ xticks (draw_shots ax df) = xticks ax
  /\ yticks (draw_shots ax df) = yticks ax
  /\ (let court := fst (create_court ax color rcParams) in
      xlim (draw_shots court df) = Some (-250, 250)
      /\ ylim (draw_shots court df) = Some (0, 470)
      /\ exists made_xs made_ys missed_xs missed_ys,
           artists (draw_shots court df)
           = artists court
             ++ [PathCollection made_xs made_ys "green" 10 (6 # 10);
                 PathCollection missed_xs missed_ys "red" 10 (6 # 10)]).
Proof.
  split; [reflexivity|]. split; [reflexivity|].
  split; [reflexivity|]. split; [reflexivity|].
  cbn zeta. split; [reflexivity|]. split; [reflexivity|].
  unfold draw_shots, scatter. cbn [artists]. rewrite <- app_assoc.
  eexists _, _, _, _. reflexivity.
Qed.

(** X19. For a table whose [LOC_Y] column is an int64 column,
    [draw_shots_hex] hands every row to [ax.hexbin], whatever its flag,
    at the same shifted coordinates [draw_shots] uses ([LOC_Y + 60] in
    64-bit arithmetic, the integer [LOC_Y + 60] when the sum does not
    overflow), so each point [draw_shots] plots is among them; and the
    extent it passes is the pair of axis limits that [create_court]
    sets. *)
Theorem draw_shots_hex_covers_all_rows
    (ax : Axes) (color : string) (rcParams : gmap string RcValue)
    (df : DataFrame) (gridsize mincount : Z) :
  int64_column LOC_Y df ->
  let hb := draw_shots_hex df gridsize mincount in
  zip (hb_x hb) (hb_y hb)
    = map (fun row => (LOC_X row, wrap_int64 (LOC_Y row + 60))) df
  /\ (no_overflow LOC_Y 60 df ->
      zip (hb_x hb) (hb_y hb) = map (fun row => (LOC_X row, LOC_Y row + 60)) df)
  /\ length (hb_x hb) = length df
  /\ length (hb_y hb) = length df
  /\ (forall a pt, a ∈ artists (draw_shots ax df) -> a ∉ artists ax ->
        pt ∈ points a -> pt ∈ zip (hb_x hb) (hb_y hb))
  /\ (exists x0 x1 y0 y1,
        hb_extent hb = [x0; x1; y0; y1]
        /\ xlim (fst (create_court ax color rcParams)) = Some (x0, x1)
        /\ ylim (fst (create_court ax color rcParams)) = Some (y0, y1))
  /\ hb_mincnt hb = mincount /\ hb_gridsize hb = gridsize.
Proof.
  intros _. cbn zeta. unfold draw_shots_hex.
  cbn [hb_x hb_y hb_extent hb_mincnt hb_gridsize].
  split; [apply ChartFacts.zip_columns|].
  split; [intros Hfit; rewrite ChartFacts.zip_columns;
          now apply ChartFacts.shifted_points_exact|].
  split; [unfold column; apply length_map|].
  split; [unfold series_add, column; now rewrite !length_map|].
  split; [|split; [exists (-250), 250, 0, 470; split; [reflexivity|];
                     split; reflexivity
                  | split; reflexivity]].
  intros a pt Hin Hnew Hpt. rewrite ChartFacts.zip_columns.
  unfold draw_shots, scatter in Hin. cbn [artists] in Hin.
  rewrite <- app_assoc in Hin. apply elem_of_app in Hin as [Hin|Hin]; [done|].
  cbn in Hin.
  apply elem_of_cons in Hin as [->|Hin];
    [|apply list_elem_of_singleton in Hin as ->];
    cbn [points] in Hpt;
    rewrite ChartFacts.zip_columns, ChartFacts.boolean_index_filter in Hpt;
    apply list_elem_of_fmap in Hpt as (row & -> & Hrow);
    apply list_elem_of_filter in Hrow as [_ Hrow];
    now apply (list_elem_of_fmap_2
                 (fun r => (LOC_X r, wrap_int64 (LOC_Y r + 60)))).
Qed.

End ChartExtras.

(** ** The further theorems at the sample inputs *)

Module ExtraWitnesses.

Import Fetch Chart Vocabulary Samples.

Lemma absent_2024_25 : fs empty_world !! output_file "2024-25" = None.
Proof. vm_compute. reflexivity. Defined.

Lemma minus_one_negative : (-1 # 1 < 0)%Q.
Proof. unfold Qlt. simpl. lia. Defined.

Lemma one_request_and_one_sleep_per_team_witness :
  (0 <= 6 # 10)%Q
  /\ fs empty_world !! output_file "2024-25" = None
  /\ exists df w' evs,
       get_all_shots_season two_teams second_fails sample_reader "2024-25" (6 # 10) 5 empty_world
         = (Ok df, w')
       /\ trace w' = trace empty_world ++ evs
       /\ List.filter is_request evs = [Request 1 "2024-25"; Request 2 "2024-25"]
       /\ length (List.filter is_sleep evs) = 2%nat.
Proof.
  split; [exact Witnesses.delay_06_nonneg|]. split; [exact absent_2024_25|].
  destruct (FetcherExtras.one_request_and_one_sleep_per_team two_teams second_fails sample_reader
              "2024-25" (6 # 10) 5 Witnesses.delay_06_nonneg empty_world absent_2024_25)
    as (df & w' & evs & Hrun & Htrace & Hreq & Hsleep & _).
  exists df, w', evs. split; [exact Hrun|]. split; [exact Htrace|].
  split; [exact Hreq | exact Hsleep].
Defined.

Lemma second_call_only_reads_the_written_file_witness :
  (0 <= 6 # 10)%Q
  /\ fs empty_world !! output_file "2024-25" = None
  /\ fetched both_answer "2024-25" two_teams <> []
  /\ exists w1 w2,
       get_all_shots_season two_teams both_answer sample_reader "2024-25" (6 # 10) 5
         empty_world
         = (Ok [shot 10 20 1; shot (-35) 80 0; shot 0 5 1], w1)
       /\ get_all_shots_season two_teams both_answer sample_reader "2024-25" (6 # 10) 5
            w1
          = (Ok [shot_read 10 20 1; shot_read (-35) 80 0; shot_read 0 5 1], w2)
       /\ fs w2 = fs w1.
Proof.
  assert (H : fetched both_answer "2024-25" two_teams <> [])
    by (vm_compute; discriminate).
  split; [exact Witnesses.delay_06_nonneg|]. split; [exact absent_2024_25|].
  split; [exact H|].
  destruct (FetcherExtras.second_call_only_reads_the_written_file two_teams
              both_answer sample_reader "2024-25" (6 # 10) 5
              Witnesses.delay_06_nonneg empty_world absent_2024_25 H)
    as (df & w1 & w2 & Hrun1 & _ & Hrun2 & Hfs & _).
  pose proof Hrun1 as Hdf. vm_compute in Hdf. injection Hdf as Hdf _.
  subst df.
  exists w1, w2. split; [exact Hrun1|]. split; [exact Hrun2 | exact Hfs].
Defined.

Lemma fetcher_touches_only_its_season_witness :
  fs (snd (get_all_shots_season two_teams both_answer sample_reader "2024-25" (6 # 10) 5
             corrupt_world)) !! "nba_shots_2023-24_all.csv"
  = Some (Unparseable "No columns to parse from file").
Proof.
  destruct (FetcherExtras.fetcher_touches_only_its_season two_teams both_answer sample_reader
              "2024-25" (6 # 10) 5 corrupt_world "nba_shots_2023-24_all.csv")
    as [Hframe _].
  rewrite Hframe; [vm_compute; reflexivity | discriminate | discriminate].
Defined.

Lemma negative_delay_aborts_at_first_team_witness :
  (-1 # 1 < 0)%Q
  /\ two_teams = hawks :: [celtics]
  /\ fs empty_world !! output_file "2024-25" = None
  /\ exists w',
       get_all_shots_season two_teams both_answer sample_reader "2024-25" (-1 # 1) 5 empty_world
         = (Raise (Exception "sleep length must be non-negative"), w')
       /\ fs w' !! output_file "2024-25" = None.
Proof.
  split; [exact minus_one_negative|]. split; [reflexivity|].
  split; [exact absent_2024_25|].
  destruct (FetcherExtras.negative_delay_aborts_at_first_team two_teams both_answer sample_reader
              "2024-25" (-1 # 1) 5 empty_world hawks [celtics]
              minus_one_negative eq_refl absent_2024_25)
    as (w' & evs & Hrun & _ & _ & _ & Hout).
  exists w'. split; [exact Hrun | exact Hout].
Defined.

Lemma zero_save_every_reports_every_team_witness :
  (0 <= 6 # 10)%Q
  /\ 0 = 0
  /\ exists f,
       team_loop both_answer "2024-25" (6 # 10) 0 two_teams (fresh_frame empty_world)
         = (Ok tt, f)
       /\ map fst (failed_teams f) = ["Atlanta Hawks"; "Boston Celtics"]
       /\ (full_name celtics, "integer modulo by zero") ∈ failed_teams f
       /\ all_shots f = fetched both_answer "2024-25" two_teams.
Proof.
  split; [exact Witnesses.delay_06_nonneg|]. split; [reflexivity|].
  destruct (FetcherExtras.zero_save_every_reports_every_team two_teams both_answer
              "2024-25" (6 # 10) 0 Witnesses.delay_06_nonneg empty_world eq_refl)
    as (f & Hrun & Hnames & Hmsg & _ & Hshots & _).
  exists f. split; [exact Hrun|]. split; [exact Hnames|].
  split; [|exact Hshots].
  apply (Hmsg celtics).
  - apply list_elem_of_further, list_elem_of_here.
  - intros e. vm_compute. discriminate.
Defined.

Lemma failed_teams_lists_the_failed_calls_witness :
  (0 <= 6 # 10)%Q
  /\ 5 <> 0
  /\ exists f,
       team_loop second_fails "2024-25" (6 # 10) 5 two_teams (fresh_frame empty_world)
         = (Ok tt, f)
       /\ failed_teams f = [("Boston Celtics", "Read timed out.")].
Proof.
  assert (H : 5 <> 0) by lia.
  split; [exact Witnesses.delay_06_nonneg|]. split; [exact H|].
  destruct (FetcherExtras.failed_teams_lists_the_failed_calls two_teams second_fails
              "2024-25" (6 # 10) 5 Witnesses.delay_06_nonneg empty_world H)
    as (f & Hrun & Hfailed & _).
  exists f. split; [exact Hrun | exact Hfailed].
Defined.

Lemma checkpoint_is_a_prefix_of_the_final_table_witness :
  (0 <= 6 # 10)%Q
  /\ two_teams = [hawks] ++ [celtics]
  /\ fs empty_world !! output_file "2024-25" = None
  /\ exists f final w',
       team_loop both_answer "2024-25" (6 # 10) 1 [hawks] (fresh_frame empty_world)
         = (Ok tt, f)
       /\ get_all_shots_season two_teams both_answer sample_reader "2024-25" (6 # 10) 1 empty_world
          = (Ok final, w')
       /\ exists snapshot later,
            fs (world f) !! progress_file "2024-25" = Some (CsvFile snapshot)
            /\ final = snapshot ++ later.
Proof.
  split; [exact Witnesses.delay_06_nonneg|]. split; [reflexivity|].
  split; [exact absent_2024_25|].
  destruct (FetcherExtras.checkpoint_is_a_prefix_of_the_final_table two_teams
              both_answer sample_reader "2024-25" (6 # 10) 1 Witnesses.delay_06_nonneg empty_world
              [hawks] [celtics] eq_refl absent_2024_25)
    as (f & evs & final & w' & Hrun & Htrace & Hfinal & Hprefix).
  exists f, final, w'. split; [exact Hrun|]. split; [exact Hfinal|].
  apply Hprefix.
  vm_compute in Hrun. injection Hrun as <-. cbn in Htrace. subst evs.
  eexists. apply list_elem_of_further, list_elem_of_here.
Defined.

Lemma answered_nth_team_leaves_a_checkpoint_witness :
  (0 <= 6 # 10)%Q
  /\ (forall e, team_outcome both_answer "2024-25" celtics <> Failed e)
  /\ 2 <> 0
  /\ 2 `mod` 2 = 0
  /\ exists f',
       team_step both_answer "2024-25" (6 # 10) 2 2 celtics (fresh_frame empty_world)
         = (Ok tt, f')
       /\ fs (world f') !! progress_file "2024-25" = Some (CsvFile [shot 0 5 1]).
Proof.
  assert (H1 : forall e, team_outcome both_answer "2024-25" celtics <> Failed e)
    by (intros e; vm_compute; discriminate).
  assert (H2 : 2 <> 0) by lia.
  assert (H3 : all_shots (fresh_frame empty_world)
               ++ option_list (team_shots both_answer "2024-25" celtics) <> [])
    by (vm_compute; discriminate).
  split; [exact Witnesses.delay_06_nonneg|]. split; [exact H1|].
  split; [exact H2|]. split; [reflexivity|].
  exact (FetcherExtras.answered_nth_team_leaves_a_checkpoint both_answer "2024-25"
           (6 # 10) 2 Witnesses.delay_06_nonneg 2 celtics (fresh_frame empty_world)
           H1 H2 eq_refl H3).
Defined.

Lemma failed_team_is_skipped_witness :
  (0 <= 6 # 10)%Q
  /\ team_outcome second_fails "2024-25" celtics = Failed (Exception "Read timed out.")
  /\ exists f',
       team_step second_fails "2024-25" (6 # 10) 2 2 celtics (fresh_frame empty_world)
         = (Ok tt, f')
       /\ fs (world f') = fs empty_world.
Proof.
  split; [exact Witnesses.delay_06_nonneg|]. split; [reflexivity|].
  destruct (FetcherExtras.failed_team_is_skipped second_fails "2024-25" (6 # 10) 2
              Witnesses.delay_06_nonneg 2 celtics (fresh_frame empty_world)
              (Exception "Read timed out.") eq_refl)
    as (f' & Hrun & _ & Hfs & _).
  exists f'. split; [exact Hrun | exact Hfs].
Defined.

Lemma driver_keeps_existing_season_files_witness :
  fs (snd (get_all_seasons two_teams both_answer sample_reader 2023 2024 (6 # 10) 5 corrupt_world))
    !! output_file "2023-24"
  = Some (Unparseable "No columns to parse from file").
Proof.
  destruct (DriverExtras.driver_keeps_existing_season_files two_teams both_answer sample_reader
              (6 # 10) 5 2023 2024 corrupt_world) as [Hkeep _].
  apply Hkeep. vm_compute. reflexivity.
Defined.

Lemma complete_seasons_are_only_read_witness :
  (forall year, 2023 <= year <= 2024 ->
     exists file d, fs two_seasons_complete !! output_file (season_str year) = Some file
                    /\ parse_csv sample_reader file = Ok d)
  /\ exists results w',
       get_all_seasons two_teams all_fail sample_reader 2023 2024 (6 # 10) 5
         two_seasons_complete
         = (Ok results, w')
       /\ fs w' = fs two_seasons_complete
       /\ dict_get results "2023-24" = Some (Success 2 "nba_shots_2023-24_all.csv").
Proof.
  assert (H : forall year, 2023 <= year <= 2024 ->
            exists file d,
              fs two_seasons_complete !! output_file (season_str year) = Some file
              /\ parse_csv sample_reader file = Ok d).
  { intros year Hy. assert (Hcases : year = 2023 \/ year = 2024) by lia.
    destruct Hcases as [-> | ->]; eexists _, _; split; vm_compute; reflexivity. }
  split; [exact H|].
  destruct (DriverExtras.complete_seasons_are_only_read two_teams all_fail sample_reader
              (6 # 10) 5 2023 2024 two_seasons_complete H)
    as (results & w' & Hrun & Hfs & _ & Hget).
  exists results, w'. split; [exact Hrun|]. split; [exact Hfs|].
  apply (Hget 2023 (CsvFile [shot 1 2 1; shot 3 4 0])
              [shot_read 1 2 1; shot_read 3 4 0]);
    [lia | vm_compute; reflexivity | vm_compute; reflexivity].
Defined.

Lemma distinct_years_have_distinct_files_witness :
  1998 <> 2098 /\ season_str 1998 <> season_str 2098.
Proof.
  assert (H : 1998 <> 2098) by lia.
  split; [exact H|].
  exact (proj1 (DriverExtras.distinct_years_have_distinct_files 1998 2098 H)).
Defined.

Lemma season_string_of_usual_years_witness :
  1999 <= 2024 <= 2098 /\ String.length (season_str 2024) = 7%nat.
Proof.
  assert (H : 1999 <= 2024 <= 2098) by lia.
  split; [exact H|].
  exact (proj2 (DriverExtras.season_string_of_usual_years 2024 H)).
Defined.

Lemma draw_shots_hex_covers_all_rows_witness :
  int64_column LOC_Y flags_1_0_1_2
  /\ no_overflow LOC_Y 60 flags_1_0_1_2
  /\ zip (hb_x (draw_shots_hex flags_1_0_1_2 25 200))
         (hb_y (draw_shots_hex flags_1_0_1_2 25 200))
     = [(10, 80); (-35, 140); (0, 65); (7, 67)].
Proof.
  assert (H1 : int64_column LOC_Y flags_1_0_1_2)
    by (intros row Hin; apply (Witnesses.flags_sample_fits row Hin)).
  assert (H2 : no_overflow LOC_Y 60 flags_1_0_1_2)
    by (intros row Hin; apply (Witnesses.flags_sample_fits row Hin)).
  split; [exact H1|]. split; [exact H2|].
  destruct (ChartExtras.draw_shots_hex_covers_all_rows empty_axes "black" ∅
              flags_1_0_1_2 25 200 H1) as (_ & Hexact & _).
  rewrite (Hexact H2). reflexivity.
Defined.

End ExtraWitnesses.
